(** * IP-Blogs backend: token middleware, user routes and post routes

    A shallow embedding of
    - [backend/src/middleware/validateUser.mjs] (the [verifyToken] middleware),
    - [backend/src/routes/posts.mjs] (the post routes, reading and writing,
      and the multer set-up),
    - the user routes ([/register] and [/login]),
    over an explicit world: the relational store, the transaction of the
    checked-out client, the log of everything the process did, and the
    response written to [res]. *)

From Stdlib Require Import List String Ascii ZArith Lia Bool Arith.
From Stdlib Require Import Sorted Permutation.
Import ListNotations.

Set Warnings "-register-all".

Local Open Scope string_scope.
Local Open Scope Z_scope.

(** ** JavaScript values used by the routes *)

Module Js.

(** [s.startsWith(p)] *)
Definition startsWith (s p : string) : bool := String.prefix p s.

(** [s.split(sep)] for a one-character separator: every occurrence of the
    separator cuts, empty segments are kept, and the empty string splits
    into one empty segment. *)
Fixpoint split (sep : ascii) (s : string) : list string :=
  match s with
  | EmptyString => [EmptyString]
  | String c rest =>
      if Ascii.eqb c sep then EmptyString :: split sep rest
      else match split sep rest with
           | [] => [String c EmptyString]
           | w :: ws => String c w :: ws
           end
  end.

(** [!v] for a value that is [undefined] ([None]) or a string: the empty
    string is falsy as well. *)
Definition falsy (v : option string) : bool :=
  match v with
  | None => true
  | Some s => String.eqb s ""
  end.

(** [arr.some(p)] *)
Definition some {A} (p : A -> bool) (arr : list A) : bool := existsb p arr.

(** JSON values, as handed to [res.json]. Objects keep their keys in
    insertion order. *)
Inductive Json :=
| JNull
| JNum (n : Z)
| JStr (s : string)
| JArr (items : list Json)
| JObj (fields : list (string * Json)).

Definition jopt (v : option string) : Json :=
  match v with
  | None => JNull
  | Some s => JStr s
  end.

(** Assignment of one key of an object literal: an existing key keeps its
    place and takes the new value, a new key goes last. This is what the
    spread [{...row, k: v}] does after copying [row]. *)
Fixpoint set_key (k : string) (v : Json) (fields : list (string * Json))
  : list (string * Json) :=
  match fields with
  | [] => [(k, v)]
  | (k', v') :: rest =>
      if String.eqb k' k then (k, v) :: rest
      else (k', v') :: set_key k v rest
  end.

Fixpoint get_key (k : string) (fields : list (string * Json)) : option Json :=
  match fields with
  | [] => None
  | (k', v') :: rest => if String.eqb k' k then Some v' else get_key k rest
  end.

Definition contains_char (c : ascii) (s : string) : bool :=
  existsb (Ascii.eqb c) (list_ascii_of_string s).

End Js.

(** ** The relational store *)

Module Db.

Record User := mkUser
  { u_id : Z; u_name : string; u_email : string; u_password : string }.

(** [title], [description] and [content] hold SQL NULL as [None]. *)
Record Post := mkPost
  { p_id : Z; p_user_id : Z;
    p_title : option string; p_description : option string;
    p_content : option string; p_created_at : Z }.

Record Attachment := mkAttachment
  { a_id : Z; a_post_id : Z; a_url : string; a_type : string }.

(** Modelled from the spec: the schema is not part of the sources. The
    spec gives [users(id, name, email unique, password)],
    [posts(id, user_id fk, title, description, content, created_at)] and
    [attachments(id, post_id fk, url, type)] with generated ids and
    attachments destroyed with their post. Ids come from one sequence per
    table; a sequence is outside transactions, as in PostgreSQL. *)
Record Database := mkDatabase
  { users : list User; posts : list Post; attachments : list Attachment;
    users_seq : Z; posts_seq : Z; attachments_seq : Z }.

(** Rows written inside an open transaction, not yet committed. *)
Record Tx := mkTx
  { tx_posts : list Post; tx_attachments : list Attachment;
    tx_aborted : bool }.

Definition empty_tx : Tx := mkTx [] [] false.

Inductive SqlVal :=
| VNull
| VInt (n : Z)
| VText (s : string).

(** The statements the routes send. [InsertAttachments] carries the
    placeholder triples of the generated VALUES list ([$a, $b, $c], one
    triple per row) and the positional parameters. *)
Inductive Stmt :=
| BEGIN
| COMMIT
| ROLLBACK
| InsertPost (user_id : Z) (title description content : option string)
| InsertAttachments (placeholders : list (nat * nat * nat))
                    (values : list SqlVal)
| UpdatePost (title description content : option string) (id user_id : Z)
| DeletePost (id user_id : Z)
| InsertUser (name email hashed : string)
| SelectUserByEmail (email : string)
| SelectPosts
| SelectPostsByUser (user_id : Z)
| SelectPostById (id : Z).

(** One row of the three listings: [posts.*], [users.name AS author_name]
    and the attachments of the post aggregated into one array. *)
Record PostView := mkPostView
  { v_post : Post; v_author_name : string; v_attachments : list Attachment }.

(** What [query] resolves to: [rows] (and [rowCount], their number). *)
Inductive Rows :=
| NoRows
| PostRows (rows : list Post)
| UserRows (rows : list User)
| AttachmentRows (rows : list Attachment)
| ViewRows (rows : list PostView).

Definition rowCount (r : Rows) : nat :=
  match r with
  | NoRows => 0%nat
  | PostRows l => List.length l
  | UserRows l => List.length l
  | AttachmentRows l => List.length l
  | ViewRows l => List.length l
  end.

(** Positional parameter [$k], counted from 1. *)
Definition param (values : list SqlVal) (k : nat) : option SqlVal :=
  match k with
  | O => None
  | S k' => nth_error values k'
  end.

(** One row of [INSERT INTO attachments (post_id, url, type) VALUES ...]:
    the three parameters must exist and have the column types. *)
Definition attachment_of (values : list SqlVal) (id : Z)
           (ph : nat * nat * nat) : option Attachment :=
  let '(a, b, c) := ph in
  match param values a, param values b, param values c with
  | Some (VInt pid), Some (VText url), Some (VText ty) =>
      Some (mkAttachment id pid url ty)
  | _, _, _ => None
  end.

Fixpoint attachments_of (values : list SqlVal) (id : Z)
         (phs : list (nat * nat * nat)) : option (list Attachment) :=
  match phs with
  | [] => Some []
  | ph :: rest =>
      match attachment_of values id ph, attachments_of values (id + 1) rest with
      | Some a, Some l => Some (a :: l)
      | _, _ => None
      end
  end.

Definition email_taken (email : string) (us : list User) : bool :=
  existsb (fun u => String.eqb (u_email u) email) us.

Definition owned (id user_id : Z) (p : Post) : bool :=
  (p_id p =? id) && (p_user_id p =? user_id).

Definition set_text (title description content : option string) (p : Post)
  : Post :=
  mkPost (p_id p) (p_user_id p) title description content (p_created_at p).

Definition set_users us seq (d : Database) : Database :=
  mkDatabase us (posts d) (attachments d) seq (posts_seq d) (attachments_seq d).
Definition set_posts ps (d : Database) : Database :=
  mkDatabase (users d) ps (attachments d)
             (users_seq d) (posts_seq d) (attachments_seq d).
Definition set_attachments ats (d : Database) : Database :=
  mkDatabase (users d) (posts d) ats
             (users_seq d) (posts_seq d) (attachments_seq d).
Definition bump_posts_seq (d : Database) : Database :=
  mkDatabase (users d) (posts d) (attachments d)
             (users_seq d) (posts_seq d + 1) (attachments_seq d).
Definition bump_attachments_seq (n : Z) (d : Database) : Database :=
  mkDatabase (users d) (posts d) (attachments d)
             (users_seq d) (posts_seq d) (attachments_seq d + n).

(** Where the written rows of a statement go: into the open transaction
    of the connection, or straight into the tables (autocommit). *)
Definition add_post (p : Post) (d : Database) (tx : option Tx)
  : Database * option Tx :=
  match tx with
  | Some t =>
      (bump_posts_seq d,
       Some (mkTx (tx_posts t ++ [p]) (tx_attachments t) (tx_aborted t)))
  | None => (set_posts (posts d ++ [p]) (bump_posts_seq d), None)
  end.

Definition add_attachments (l : list Attachment) (d : Database)
           (tx : option Tx) : Database * option Tx :=
  let d' := bump_attachments_seq (Z.of_nat (List.length l)) d in
  match tx with
  | Some t =>
      (d', Some (mkTx (tx_posts t) (tx_attachments t ++ l) (tx_aborted t)))
  | None => (set_attachments (attachments d ++ l) d', None)
  end.

Definition commit (t : Tx) (d : Database) : Database :=
  if tx_aborted t then d
  else set_attachments (attachments d ++ tx_attachments t)
         (set_posts (posts d ++ tx_posts t) d).

(** [FROM posts JOIN users ON posts.user_id = users.id LEFT JOIN
    attachments ON posts.id = attachments.post_id WHERE keep GROUP BY
    posts.id, users.name]: a post without its author is not listed, a post
    without attachments is listed with none. Ids are keys, so a group is
    one post with one author. *)
Definition joined (keep : Post -> bool) (d : Database) : list PostView :=
  flat_map
    (fun p =>
       map (fun u =>
              mkPostView p (u_name u)
                (filter (fun a => a_post_id a =? p_id p) (attachments d)))
           (filter (fun u => u_id u =? p_user_id p) (users d)))
    (filter keep (posts d)).

(** [ORDER BY posts.created_at DESC]; rows of the same instant stay in the
    order they had. *)
Fixpoint insert_desc (v : PostView) (l : list PostView) : list PostView :=
  match l with
  | [] => [v]
  | x :: rest =>
      if p_created_at (v_post x) <=? p_created_at (v_post v) then v :: l
      else x :: insert_desc v rest
  end.

Definition order_desc (l : list PostView) : list PostView :=
  fold_right insert_desc [] l.

Definition is_control (s : Stmt) : bool :=
  match s with
  | BEGIN | COMMIT | ROLLBACK => true
  | _ => false
  end.

Definition in_failed_tx (tx : option Tx) : bool :=
  match tx with
  | Some t => tx_aborted t
  | None => false
  end.

(** Execution of one statement at time [now] on the tables [d] and the
    transaction [tx] of the connection. No rows ([None]) is a statement
    the store rejects for a reason visible in this model: an empty VALUES
    list, a parameter that is missing or of the wrong type, an email that
    is taken, any statement but COMMIT and ROLLBACK in a failed
    transaction. A rejected INSERT has still drawn from the sequence. *)
Definition exec (now : Z) (s : Stmt) (d : Database) (tx : option Tx)
  : option Rows * Database * option Tx :=
  if in_failed_tx tx && negb (is_control s) then (None, d, tx) else
  match s with
  | BEGIN =>
      (Some NoRows, d,
       match tx with Some t => Some t | None => Some empty_tx end)
  | COMMIT =>
      (Some NoRows, match tx with Some t => commit t d | None => d end, None)
  | ROLLBACK => (Some NoRows, d, None)
  | InsertPost uid title description content =>
      let p := mkPost (posts_seq d) uid title description content now in
      let '(d', tx') := add_post p d tx in
      (Some (PostRows [p]), d', tx')
  | InsertAttachments phs values =>
      match phs with
      | [] => (None, d, tx)
      | _ :: _ =>
          if (List.length values =? S (2 * List.length phs))%nat then
            match attachments_of values (attachments_seq d) phs with
            | Some l =>
                let '(d', tx') := add_attachments l d tx in
                (Some NoRows, d', tx')
            | None => (None, d, tx)
            end
          else (None, d, tx)
      end
  | UpdatePost title description content id uid =>
      let hit := filter (owned id uid) (posts d) in
      let ps := map (fun p => if owned id uid p
                              then set_text title description content p
                              else p) (posts d) in
      (Some (PostRows (map (set_text title description content) hit)),
       set_posts ps d, tx)
  | DeletePost id uid =>
      let hit := filter (owned id uid) (posts d) in
      let gone := fun a => existsb (fun p => p_id p =? a_post_id a) hit in
      (Some (PostRows hit),
       set_attachments (filter (fun a => negb (gone a)) (attachments d))
         (set_posts (filter (fun p => negb (owned id uid p)) (posts d)) d),
       tx)
  | InsertUser name email hashed =>
      if email_taken email (users d)
      then (None, set_users (users d) (users_seq d + 1) d, tx)
      else
        let u := mkUser (users_seq d) name email hashed in
        (Some (UserRows [u]),
         set_users (users d ++ [u]) (users_seq d + 1) d, tx)
  | SelectUserByEmail email =>
      (Some (UserRows
               (filter (fun u => String.eqb (u_email u) email) (users d))),
       d, tx)
  | SelectPosts => (Some (ViewRows (order_desc (joined (fun _ => true) d))), d, tx)
  | SelectPostsByUser uid =>
      (Some (ViewRows (order_desc (joined (fun p => p_user_id p =? uid) d))),
       d, tx)
  | SelectPostById id =>
      (Some (ViewRows (joined (fun p => p_id p =? id) d)), d, tx)
  end.

(** A statement that failed inside a transaction leaves it failed. *)
Definition abort (tx : option Tx) : option Tx :=
  match tx with
  | Some t => Some (mkTx (tx_posts t) (tx_attachments t) true)
  | None => None
  end.

End Db.

(** ** The process: world, effects and the external collaborators *)

Module Rt.
Import Js Db.

(** A file part of a multipart request, and later an entry of
    [req.files]. [size] is the number of bytes of the part; it is kept as
    a number so that a part of many megabytes can be written down. *)
Record File := mkFile
  { fieldname : string; originalname : string; mimetype : string;
    size : Z; buffer : string }.

(** The decoded token payload: what was signed, with [iat] and [exp]. *)
Record Claims := mkClaims
  { c_id : Z; c_email : string; c_iat : Z; c_exp : Z }.

Inductive Conn := Pool | Client.

Inductive Event :=
| EvNext
| EvNextErr (message : string)
| EvConnect (ok : bool)
| EvRelease
| EvQuery (via : Conn) (s : Stmt) (ok : bool)
| EvUploadBegin (f : File)
| EvUploadEnd (secure_url : option string)
| EvRespond (status : Z) (body : Json).

(** [stmts], [uploads] and [draws] count the store operations, the
    uploads and the salts drawn so far; they index the behaviour of the
    collaborators below. [res] is the response of the request being
    served. *)
Record World := mkWorld
  { db : Database; tx : option Tx; checked_out : bool;
    stmts : nat; uploads : nat; draws : nat; now : Z;
    log : list Event; res : option (Z * Json) }.

Inductive Result (A : Type) :=
| Ok (a : A)
| Throw (message : string).
Arguments Ok {A} a.
Arguments Throw {A} message.

(** A computation of the process: it ends normally or throws, and leaves
    a world behind either way. *)
Definition M (A : Type) : Type := World -> Result A * World.

Definition ret {A} (a : A) : M A := fun w => (Ok a, w).

Definition bind {A B} (c : M A) (k : A -> M B) : M B :=
  fun w =>
    match c w with
    | (Ok a, w') => k a w'
    | (Throw e, w') => (Throw e, w')
    end.

Definition throw {A} (message : string) : M A := fun w => (Throw message, w).

(** [try { body } catch (err) { handler }] *)
Definition try_catch {A} (body : M A) (handler : string -> M A) : M A :=
  fun w =>
    match body w with
    | (Ok a, w') => (Ok a, w')
    | (Throw e, w') => handler e w'
    end.

(** [try { body } finally { fin }] *)
Definition try_finally {A} (body : M A) (fin : M unit) : M A :=
  fun w =>
    match body w with
    | (r, w') =>
        match fin w' with
        | (Ok _, w'') => (r, w'')
        | (Throw e, w'') => (Throw e, w'')
        end
    end.

Declare Scope js_scope.
Delimit Scope js_scope with js.
Notation "x <- c ;; k" := (bind c (fun x => k))
  (at level 100, c at next level, right associativity) : js_scope.
Notation "c ;; k" := (bind c (fun _ => k))
  (at level 100, right associativity) : js_scope.
Local Open Scope js_scope.

Definition with_log (l : list Event) (w : World) : World :=
  mkWorld (db w) (tx w) (checked_out w) (stmts w) (uploads w) (draws w)
          (now w) l (res w).
Definition with_res (r : option (Z * Json)) (w : World) : World :=
  mkWorld (db w) (tx w) (checked_out w) (stmts w) (uploads w) (draws w)
          (now w) (log w) r.
Definition with_store (d : Database) (t : option Tx) (w : World) : World :=
  mkWorld d t (checked_out w) (stmts w) (uploads w) (draws w)
          (now w) (log w) (res w).
Definition with_checked_out (b : bool) (w : World) : World :=
  mkWorld (db w) (tx w) b (stmts w) (uploads w) (draws w)
          (now w) (log w) (res w).
Definition with_stmts (n : nat) (w : World) : World :=
  mkWorld (db w) (tx w) (checked_out w) n (uploads w) (draws w)
          (now w) (log w) (res w).
Definition with_uploads (n : nat) (w : World) : World :=
  mkWorld (db w) (tx w) (checked_out w) (stmts w) n (draws w)
          (now w) (log w) (res w).
Definition with_draws (n : nat) (w : World) : World :=
  mkWorld (db w) (tx w) (checked_out w) (stmts w) (uploads w) n
          (now w) (log w) (res w).
Definition with_now (t : Z) (w : World) : World :=
  mkWorld (db w) (tx w) (checked_out w) (stmts w) (uploads w) (draws w)
          t (log w) (res w).

Definition emit (e : Event) : M unit :=
  fun w => (Ok tt, with_log (log w ++ [e]) w).

Definition clock : M Z := fun w => (Ok (now w), w).

(** [res.status(status).json(body)]; a second response on the same
    request throws (the headers are already sent). *)
Definition respond (status : Z) (body : Json) : M unit :=
  fun w =>
    match res w with
    | Some _ => (Throw "Cannot set headers after they are sent to the client", w)
    | None =>
        (Ok tt,
         with_res (Some (status, body))
                  (with_log (log w ++ [EvRespond status body]) w))
    end.

Definition msg (m : string) : Json := JObj [("msg", JStr m)].

(** The configuration and the collaborators of the process, handed to
    every route.
    - [JWT_SECRET]: [process.env.JWT_SECRET];
    - [jwt_sign payload secret expiresIn now], [jwt_verify token secret
      now]: the token library, [expiresIn] in seconds;
    - [bcrypt_hash draw password rounds], [bcrypt_compare password hash]:
      the password library, [draw] choosing the salt;
    - [db_fault n]: the store operation number [n] of the process fails
      (a constraint outside the model above, a lost connection, ...);
    - [upload_stream n file]: what the media host answers to upload
      number [n], a [secure_url] or an error;
    - [error_handler]: where the application sends an error passed to
      [next(err)]. *)
Record Env := mkEnv
  { JWT_SECRET : string;
    jwt_sign : Z * string -> string -> Z -> Z -> string;
    jwt_verify : string -> string -> Z -> option Claims;
    bcrypt_hash : nat -> string -> Z -> string;
    bcrypt_compare : string -> string -> bool;
    db_fault : nat -> bool;
    upload_stream : nat -> File -> option string;
    error_handler : string -> M unit }.

Section Effects.
Variable env : Env.

(** [await pool.connect()] *)
Definition connect : M unit :=
  fun w =>
    let w1 := with_stmts (S (stmts w)) w in
    if db_fault env (stmts w)
    then (Throw "connection failed", with_log (log w ++ [EvConnect false]) w1)
    else (Ok tt, with_checked_out true
                   (with_log (log w ++ [EvConnect true]) w1)).

(** [client.release()] *)
Definition release : M unit :=
  fun w => (Ok tt, with_checked_out false (with_log (log w ++ [EvRelease]) w)).

(** [await pool.query(s)] and [await client.query(s)]: a statement over
    the pool runs on its own, one over the client runs in the client's
    transaction when one is open. *)
Definition query (via : Conn) (s : Stmt) : M Rows :=
  fun w =>
    let w1 := with_stmts (S (stmts w)) w in
    let t := match via with Client => tx w | Pool => None end in
    let keep := fun t' => match via with Client => t' | Pool => tx w end in
    if db_fault env (stmts w)
    then (Throw "database error",
          with_store (db w) (keep (abort t))
            (with_log (log w ++ [EvQuery via s false]) w1))
    else
      match exec (now w) s (db w) t with
      | (Some rows, d', t') =>
          (Ok rows,
           with_store d' (keep t')
             (with_log (log w ++ [EvQuery via s true]) w1))
      | (None, d', t') =>
          (Throw "database error",
           with_store d' (keep (abort t'))
             (with_log (log w ++ [EvQuery via s false]) w1))
      end.

(** [await new Promise((resolve, reject) => { const stream =
    cloudinary.uploader.upload_stream(..., (error, result) => error ?
    reject(error) : resolve(result)); stream.end(file.buffer) })] *)
Definition upload (file : File) : M string :=
  fun w =>
    let w1 := with_uploads (S (uploads w)) w in
    match upload_stream env (uploads w) file with
    | Some url =>
        (Ok url,
         with_log (log w ++ [EvUploadBegin file; EvUploadEnd (Some url)]) w1)
    | None =>
        (Throw "upload error",
         with_log (log w ++ [EvUploadBegin file; EvUploadEnd None]) w1)
    end.

(** [await bcrypt.hash(password, rounds)] *)
Definition hash (password : string) (rounds : Z) : M string :=
  fun w =>
    (Ok (bcrypt_hash env (draws w) password rounds),
     with_draws (S (draws w)) w).

End Effects.

End Rt.

(** ** Requests *)

Module Http.
Import Js Db Rt.

(** What the routes read from [req]: the authorization header, [:id], the
    body fields, the file parts of a multipart body, and what the
    middlewares attach ([req.user], [req.files]). The [:id] parameter is
    kept as the integer it denotes. *)
Record Request := mkRequest
  { authorization : option string;
    id_param : Z;
    title : option string; description : option string;
    content : option string;
    parts : list File;
    user : option Claims;
    files : list File }.

Definition with_user (c : Claims) (req : Request) : Request :=
  mkRequest (authorization req) (id_param req) (title req) (description req)
            (content req) (parts req) (Some c) (files req).

Definition with_files (fs : list File) (req : Request) : Request :=
  mkRequest (authorization req) (id_param req) (title req) (description req)
            (content req) (parts req) (user req) fs.

(** The body of [/register] and [/login]. *)
Record Credentials := mkCredentials
  { name : string; email : string; password : string }.

(** One request served from start to end: the response slot is fresh when
    the chain starts; what the chain threw, if anything, is dropped (a
    rejected handler promise reaches nobody). *)
Definition serve (chain : M unit) (w : World) : World :=
  snd (chain (with_res None w)).

Definition status (w : World) : option Z := option_map fst (res w).

End Http.

(** ** [middleware/validateUser.mjs] *)

Module Auth.
Import Js Db Rt Http.
Local Open Scope js_scope.

Section Middleware.
Variable env : Env.

(** [req.headers.authorization?.split(" ")[1]] *)
Definition token_of (req : Request) : option string :=
  match authorization req with
  | None => None
  | Some h => nth_error (split " " h) 1
  end.

(** [verifyToken(req, res, next)]. [next()] hands the request to the
    router, which runs the rest of the chain under its own error handling:
    nothing the rest of the chain throws comes back into the [try]. *)
Definition verifyToken (req : Request) (next : Request -> M unit) : M unit :=
  let token := token_of req in
  if falsy token then respond 401 (msg "Token missing")
  else
    t <- clock ;;
    match jwt_verify env (match token with Some s => s | None => "" end)
                     (JWT_SECRET env) t with
    | Some decoded => emit EvNext ;; next (with_user decoded req)
    | None => respond 403 (msg "Invalid token")
    end.

End Middleware.
End Auth.

(** ** [routes/posts.mjs] *)

Module Posts.
Import Js Db Rt Http Auth.
Local Open Scope js_scope.

(** [limits.fileSize] *)
Definition fileSize : Z := 10 * 1024 * 1024.

(** [fileFilter]: [cb(null, true)] is [Ok true], [cb(new Error(...))] is
    [Throw]. *)
Definition fileFilter (file : File) : Result bool :=
  let allowed := ["image/"; "video/"; "application/pdf"] in
  if some (fun type => startsWith (mimetype file) type) allowed
  then Ok true
  else Throw "Invalid file type".

(** The multer instance [upload] on the file parts of a request, for
    [upload.array(name, maxCount)]: parts are taken in order; a part under
    another field name or beyond [maxCount] is unexpected; then the file
    filter decides; then the part is read into memory up to the size limit.
    The first error ends the parsing. *)
Fixpoint multer (name : string) (left : nat) (ps : list File) {struct ps}
  : Result (list File) :=
  match ps with
  | [] => Ok []
  | f :: rest =>
      if negb (String.eqb (fieldname f) name) then Throw "Unexpected field"
      else
        match left with
        | O => Throw "Unexpected field"
        | S left' =>
            match fileFilter f with
            | Throw e => Throw e
            | Ok false => multer name left' rest
            | Ok true =>
                if fileSize <? size f then Throw "File too large"
                else
                  match multer name left' rest with
                  | Ok fs => Ok (f :: fs)
                  | Throw e => Throw e
                  end
            end
        end
  end.

(** An attachment descriptor [{ url, type }]. *)
Record Descriptor := mkDescriptor { url : string; type : string }.

(** The conditional chain that picks [type]. *)
Definition type_of (mimetype : string) : string :=
  if startsWith mimetype "image" then "image"
  else if startsWith mimetype "video" then "video"
  else "pdf".

Definition descriptor_json (d : Descriptor) : Json :=
  JObj [("url", JStr (url d)); ("type", JStr (type d))].

Definition post_json (p : Post) : list (string * Json) :=
  [("id", JNum (p_id p)); ("user_id", JNum (p_user_id p));
   ("title", jopt (p_title p)); ("description", jopt (p_description p));
   ("content", jopt (p_content p)); ("created_at", JNum (p_created_at p))].

(** [attachments.map((_, i) => `($1, $${i * 2 + 2}, $${i * 2 + 3})`)] *)
Definition placeholders (attachments : list Descriptor)
  : list (nat * nat * nat) :=
  map (fun i => (1, i * 2 + 2, i * 2 + 3))%nat
      (seq 0 (List.length attachments)).

(** [values = [postId]], then [values.push(att.url, att.type)] for each. *)
Definition values (postId : Z) (attachments : list Descriptor) : list SqlVal :=
  VInt postId
    :: flat_map (fun att => [VText (url att); VText (type att)]) attachments.

Definition post_rows (r : Rows) : list Post :=
  match r with
  | PostRows l => l
  | _ => []
  end.

(** [result.rows[0]], read for one of its columns. *)
Definition first_post (r : Rows) : M Post :=
  match post_rows r with
  | p :: _ => ret p
  | [] => throw "Cannot read properties of undefined"
  end.

Definition view_rows (r : Rows) : list PostView :=
  match r with
  | ViewRows l => l
  | _ => []
  end.

(** [json_agg] over whole attachment rows: every column. *)
Definition attachment_json (a : Attachment) : Json :=
  JObj [("id", JNum (a_id a)); ("post_id", JNum (a_post_id a));
        ("url", JStr (a_url a)); ("type", JStr (a_type a))].

(** [jsonb_build_object('id', ..., 'url', ..., 'type', ...)] *)
Definition attachment_object (a : Attachment) : Json :=
  JObj [("id", JNum (a_id a)); ("url", JStr (a_url a));
        ("type", JStr (a_type a))].

(** A listed row: the post's columns, [author_name], [attachments]. *)
Definition view_json (att : Attachment -> Json) (v : PostView)
  : list (string * Json) :=
  post_json (v_post v)
    ++ [("author_name", JStr (v_author_name v));
        ("attachments", JArr (map att (v_attachments v)))].

(** [err.stack], without the frames. *)
Definition stack (message : string) : string := "Error: " ++ message.

Section Routes.
Variable env : Env.

(** [upload.array("files", 5)] as a middleware: on success [req.files] is
    set and the chain goes on, on an error the error goes to [next(err)]. *)
Definition upload_array (name : string) (maxCount : nat) (req : Request)
           (next : Request -> M unit) : M unit :=
  match multer name maxCount (parts req) with
  | Ok fs => emit EvNext ;; next (with_files fs req)
  | Throw e => emit (EvNextErr e) ;; error_handler env e
  end.

(** The [for (const file of req.files)] loop; [attachments] is the array
    being filled. *)
Fixpoint upload_each (fs : list File) (attachments : list Descriptor)
  : M (list Descriptor) :=
  match fs with
  | [] => ret attachments
  | file :: rest =>
      att <- try_catch
               (secure_url <- upload env file ;;
                ret (mkDescriptor secure_url (type_of (mimetype file))))
               (fun _ => throw "File upload failed") ;;
      upload_each rest (attachments ++ [att])
  end.

(** [req.user.id] *)
Definition user_id (req : Request) : M Z :=
  match user req with
  | Some c => ret (c_id c)
  | None => throw "Cannot read properties of undefined"
  end.

(** [router.post("/", verifyToken, upload.array("files", 5), handler)]:
    the handler. *)
Definition createPost (req : Request) : M unit :=
  userId <- user_id req ;;
  if falsy (title req) || falsy (description req) || falsy (content req)
  then respond 400 (msg "Missing required fields")
  else
    connect env ;;
    try_finally
      (try_catch
         (query env Client BEGIN ;;
          postResult <- query env Client
                          (InsertPost userId (title req) (description req)
                                      (content req)) ;;
          row0 <- first_post postResult ;;
          let postId := p_id row0 in
          attachments <-
            match files req with
            | [] => ret []
            | _ :: _ =>
                attachments <- upload_each (files req) [] ;;
                query env Client
                      (InsertAttachments (placeholders attachments)
                                         (values postId attachments)) ;;
                ret attachments
            end ;;
          query env Client COMMIT ;;
          respond 201
            (JObj (set_key "attachments"
                           (JArr (map descriptor_json attachments))
                           (post_json row0))))
         (fun err =>
            query env Client ROLLBACK ;;
            respond 500
              (JObj [("msg", JStr "Post creation failed");
                     ("error", JStr err); ("stack", JStr (stack err))])))
      (release).

(** [router.put("/:id", verifyToken, handler)]: the handler. *)
Definition updatePost (req : Request) : M unit :=
  userId <- user_id req ;;
  try_catch
    (result <- query env Pool
                 (UpdatePost (title req) (description req) (content req)
                             (id_param req) userId) ;;
     if (rowCount result =? 0)%nat
     then respond 403 (msg "Unauthorized or not found")
     else row0 <- first_post result ;; respond 200 (JObj (post_json row0)))
    (fun err =>
       respond 500 (JObj [("msg", JStr "Update failed"); ("error", JStr err)])).

(** [router.delete("/:id", verifyToken, handler)]: the handler. *)
Definition deletePost (req : Request) : M unit :=
  userId <- user_id req ;;
  try_catch
    (result <- query env Pool (DeletePost (id_param req) userId) ;;
     if (rowCount result =? 0)%nat
     then respond 403 (msg "Unauthorized or not found")
     else respond 200 (msg "Post deleted successfully"))
    (fun err =>
       respond 500 (JObj [("msg", JStr "Delete failed"); ("error", JStr err)])).

(** [router.get("/", handler)] *)
Definition getPosts : M unit :=
  try_catch
    (posts <- query env Pool SelectPosts ;;
     respond 200 (JArr (map (fun v => JObj (view_json attachment_json v))
                        (view_rows posts))))
    (fun err =>
       respond 500 (JObj [("msg", JStr "Failed to fetch posts");
                          ("error", JStr err)])).

(** [router.get("/user/:userId", handler)] *)
Definition getUserPosts (userId : Z) : M unit :=
  try_catch
    (posts <- query env Pool (SelectPostsByUser userId) ;;
     respond 200 (JArr (map (fun v => JObj (view_json attachment_object v))
                        (view_rows posts))))
    (fun err =>
       respond 500 (JObj [("msg", JStr "Failed to fetch user posts");
                          ("error", JStr err)])).

(** [router.get("/:id", handler)] *)
Definition getPost (id : Z) : M unit :=
  try_catch
    (post <- query env Pool (SelectPostById id) ;;
     match view_rows post with
     | [] => respond 404 (msg "Post not found")
     | row0 :: _ => respond 200 (JObj (view_json attachment_json row0))
     end)
    (fun err =>
       respond 500 (JObj [("msg", JStr "Failed to fetch post");
                          ("error", JStr err)])).

Definition POST_posts (req : Request) : M unit :=
  verifyToken env req (fun req => upload_array "files" 5 req createPost).

Definition PUT_posts_id (req : Request) : M unit :=
  verifyToken env req updatePost.

Definition DELETE_posts_id (req : Request) : M unit :=
  verifyToken env req deletePost.

End Routes.
End Posts.

(** ** The user routes *)

Module Users.
Import Js Db Rt Http.
Local Open Scope js_scope.

(** [expiresIn: "1d"], in seconds. *)
Definition one_day : Z := 24 * 60 * 60.

Definition user_rows (r : Rows) : list User :=
  match r with
  | UserRows l => l
  | _ => []
  end.

Section Routes.
Variable env : Env.

(** [router.post("/register", handler)]; the row comes back as
    [RETURNING id, name, email]. *)
Definition register (body : Credentials) : M unit :=
  hashed <- hash env (password body) 10 ;;
  try_catch
    (user <- query env Pool (InsertUser (name body) (email body) hashed) ;;
     match user_rows user with
     | u :: _ =>
         respond 201 (JObj [("id", JNum (u_id u)); ("name", JStr (u_name u));
                            ("email", JStr (u_email u))])
     | [] => respond 201 JNull
     end)
    (fun err =>
       respond 500 (JObj [("msg", JStr "Registration failed");
                          ("error", JStr err)])).

(** [router.post("/login", handler)] *)
Definition login (body : Credentials) : M unit :=
  try_catch
    (user <- query env Pool (SelectUserByEmail (email body)) ;;
     match user_rows user with
     | [] => respond 404 (msg "User not found")
     | u :: _ =>
         let isMatch := bcrypt_compare env (password body) (u_password u) in
         if negb isMatch then respond 401 (msg "Invalid credentials")
         else
           t <- clock ;;
           let token := jwt_sign env (u_id u, u_email u) (JWT_SECRET env)
                                 one_day t in
           respond 200
             (JObj [("token", JStr token);
                    ("user", JObj [("id", JNum (u_id u));
                                   ("name", JStr (u_name u))])])
     end)
    (fun err =>
       respond 500 (JObj [("msg", JStr "Login failed"); ("error", JStr err)])).

End Routes.
End Users.

(** ** A concrete environment, for concrete runs *)

Module Sample.
Import Js Db Rt Http Auth Posts Users.
Local Open Scope js_scope.

(** A self-delimiting code for integers, so that a token can be taken
    apart again. *)
Fixpoint enc_pos (p : positive) (rest : string) : string :=
  match p with
  | xH => String "." rest
  | xO q => String "0" (enc_pos q rest)
  | xI q => String "1" (enc_pos q rest)
  end.

Definition enc_Z (z : Z) (rest : string) : string :=
  match z with
  | Z0 => String "z" rest
  | Zpos p => String "p" (enc_pos p rest)
  | Zneg p => String "n" (enc_pos p rest)
  end.

Fixpoint dec_pos (s : string) : option (positive * string) :=
  match s with
  | EmptyString => None
  | String c rest =>
      if Ascii.eqb c "." then Some (xH, rest)
      else
        match dec_pos rest with
        | Some (q, rest') =>
            if Ascii.eqb c "0" then Some (xO q, rest')
            else if Ascii.eqb c "1" then Some (xI q, rest')
            else None
        | None => None
        end
  end.

Definition dec_Z (s : string) : option (Z * string) :=
  match s with
  | EmptyString => None
  | String c rest =>
      if Ascii.eqb c "z" then Some (0, rest)
      else
        match dec_pos rest with
        | Some (p, rest') =>
            if Ascii.eqb c "p" then Some (Zpos p, rest')
            else if Ascii.eqb c "n" then Some (Zneg p, rest')
            else None
        | None => None
        end
  end.

(** A token library without a signature: the token is the payload, the
    time of issue and the life time, readable by anyone. *)
Definition sign (payload : Z * string) (secret : string) (expiresIn now : Z)
  : string :=
  enc_Z (fst payload) (enc_Z now (enc_Z expiresIn (snd payload))).

Definition verify (token secret : string) (t : Z) : option Claims :=
  match dec_Z token with
  | Some (id, s1) =>
      match dec_Z s1 with
      | Some (iat, s2) =>
          match dec_Z s2 with
          | Some (ttl, email) =>
              if t <? iat + ttl then Some (mkClaims id email iat (iat + ttl))
              else None
          | None => None
          end
      | None => None
      end
  | None => None
  end.

(** Express's own error handling, used when the application installs
    none: an error without a status is answered with 500. *)
Definition default_error_handler (message : string) : M unit :=
  respond 500 (JStr message).

(** Nothing fails, every upload [n] of a file is stored under the file's
    name. *)
Definition quiet : Env :=
  mkEnv "s3cret" sign verify (fun _ password _ => password) String.eqb
        (fun _ => false)
        (fun _ f => Some ("https://media/" ++ originalname f))
        default_error_handler.

(** The same with chosen failures of the store and of the media host. *)
Definition failing (faults : nat -> bool) (bad_uploads : nat -> bool) : Env :=
  mkEnv "s3cret" sign verify (fun _ password _ => password) String.eqb
        faults
        (fun n f => if bad_uploads n then None
                    else Some ("https://media/" ++ originalname f))
        default_error_handler.

Definition empty_db : Database := mkDatabase [] [] [] 1 1 1.

Definition start (d : Database) (t : Z) : World :=
  mkWorld d None false 0 0 0 t [] None.

Definition ann : Credentials := mkCredentials "Ann" "ann@x.org" "pw".

Definition png : File := mkFile "files" "a.png" "image/png" 100 "PNG".
Definition mp4 : File := mkFile "files" "b.mp4" "video/mp4" 2000 "MP4".
Definition pdf : File := mkFile "files" "c.pdf" "application/pdf" 300 "PDF".
Definition txt : File := mkFile "files" "d.txt" "text/plain" 10 "TXT".
Definition huge : File :=
  mkFile "files" "e.png" "image/png" (10 * 1024 * 1024 + 1) "PNG".

Definition ann_token : string := sign (1, "ann@x.org") "s3cret" one_day 1000.

Definition post_request (auth : option string) (ps : list File) : Request :=
  mkRequest auth 0 (Some "T") (Some "D") (Some "C") ps None [].

(** A store with two users, two posts and one attachment. *)
Definition ann_user : User := mkUser 1 "Ann" "ann@x.org" "pw".
Definition bob_user : User := mkUser 2 "Bob" "bob@x.org" "pw2".
Definition ann_post : Post :=
  mkPost 1 1 (Some "Hello") (Some "first") (Some "text") 500.
Definition bob_post : Post :=
  mkPost 2 2 (Some "World") (Some "second") (Some "more") 700.
Definition ann_picture : Attachment :=
  mkAttachment 1 1 "https://media/a.png" "image".

Definition blog : Database :=
  mkDatabase [ann_user; bob_user] [ann_post; bob_post] [ann_picture] 3 3 2.

Definition ann_claims : Claims := mkClaims 1 "ann@x.org" 1000 87400.
Definition bob_claims : Claims := mkClaims 2 "bob@x.org" 1000 87400.

(** A request as the handlers see it once the middlewares have run. *)
Definition handler_request (c : Claims) (id : Z)
           (t d ct : option string) (fs : list File) : Request :=
  mkRequest None id t d ct fs (Some c) fs.

End Sample.

(** ** What a run of the upload loop leaves behind *)

Module Runs.
Import Js Db Rt Http Auth Posts Users.

Definition is_upload (e : Event) : bool :=
  match e with
  | EvUploadBegin _ | EvUploadEnd _ => true
  | _ => false
  end.

Definition is_query (e : Event) : bool :=
  match e with
  | EvQuery _ _ _ | EvConnect _ => true
  | _ => false
  end.

(** An event that records a failure: a client the pool could not give, a
    statement the store refused, an upload the media host refused. *)
Definition failed (e : Event) : bool :=
  match e with
  | EvConnect false | EvQuery _ _ false | EvUploadEnd None => true
  | _ => false
  end.

(** The order of a listing: [a] may stand before [b] when it is not
    older. *)
Definition newer_first (a b : PostView) : Prop :=
  p_created_at (v_post b) <= p_created_at (v_post a).

(** The row a listing shows for the post [p] written by [u]. *)
Definition view_of (d : Database) (p : Post) (u : User) : PostView :=
  mkPostView p (u_name u)
             (filter (fun a => a_post_id a =? p_id p) (attachments d)).

(** The rows that [INSERT INTO attachments] writes for the descriptors
    [ds] of the post [postId], the first one under the id [id]. *)
Fixpoint rows_of (id postId : Z) (ds : list Descriptor) : list Attachment :=
  match ds with
  | [] => []
  | d :: rest =>
      mkAttachment id postId (url d) (type d) :: rows_of (id + 1) postId rest
  end.

Section Uploads.
Variable env : Env.

(** The descriptors pushed when the loop over [fs] ends, the first file
    being upload number [k]; nothing when an upload failed. *)
Fixpoint loop_result (k : nat) (fs : list File) : option (list Descriptor) :=
  match fs with
  | [] => Some []
  | f :: rest =>
      match upload_stream env k f with
      | Some u =>
          option_map (cons (mkDescriptor u (type_of (mimetype f))))
                     (loop_result (S k) rest)
      | None => None
      end
  end.

(** The number of uploads the loop starts. *)
Fixpoint attempts (k : nat) (fs : list File) : nat :=
  match fs with
  | [] => 0
  | f :: rest =>
      S (match upload_stream env k f with
         | Some _ => attempts (S k) rest
         | None => 0
         end)
  end.

(** The events of upload number [k + i], of the file at index [i]. *)
Definition upload_pair (k : nat) (fs : list File) (i : nat) : list Event :=
  match nth_error fs i with
  | Some f => [EvUploadBegin f; EvUploadEnd (upload_stream env (k + i) f)]
  | None => []
  end.

(** A computation that starts no upload: the count of uploads stays and
    no upload event is logged. *)
Definition starts_no_upload {A} (c : M A) : Prop :=
  forall w,
    uploads (snd (c w)) = uploads w
    /\ exists evs, log (snd (c w)) = (log w ++ evs)%list
                   /\ filter is_upload evs = [].

(** A computation whose uploads are those of the first [n] files of [fs],
    one after the other in the order of [fs], each ended before the next
    begins, and none but the last of them failed. *)
Definition uploads_in_order (fs : list File) {A} (c : M A) : Prop :=
  forall w,
    exists evs n,
      log (snd (c w)) = (log w ++ evs)%list
      /\ (n <= List.length fs)%nat
      /\ filter is_upload evs
         = flat_map (upload_pair (uploads w) fs) (seq 0 n)
      /\ (forall i f, (S i < n)%nat -> nth_error fs i = Some f ->
                      upload_stream env (uploads w + i) f <> None).

End Uploads.
End Runs.

(** * Properties *)

(** ** Strings and splitting *)

Module JsFacts.
Import Js.

Lemma contains_char_cons (c a : ascii) (s : string) :
  contains_char c (String a s) = Ascii.eqb c a || contains_char c s.
Proof. reflexivity. Qed.

(** A string without the separator is its own and only segment. *)
Lemma split_without_sep (c : ascii) (s : string) :
  contains_char c s = false -> split c s = [s].
Proof.
  induction s as [|a s IH]; intros H; [reflexivity|].
  rewrite contains_char_cons in H.
  apply orb_false_iff in H as [Ha Hs].
  cbn [split]. rewrite Ascii.eqb_sym, Ha, (IH Hs). reflexivity.
Qed.

(** The first separator ends the first segment. *)
Lemma split_at_first_sep (c : ascii) (a b : string) :
  contains_char c a = false ->
  split c (a ++ String c b) = a :: split c b.
Proof.
  induction a as [|x a IH]; intros H; cbn [append split].
  - rewrite Ascii.eqb_refl. reflexivity.
  - rewrite contains_char_cons in H.
    apply orb_false_iff in H as [Hx Ha].
    rewrite Ascii.eqb_sym, Hx, (IH Ha). reflexivity.
Qed.

Lemma prefix_app (p s t : string) :
  String.prefix (p ++ s) t = true -> String.prefix p t = true.
Proof.
  revert t. induction p as [|a p IH]; intros t H.
  - destruct t; reflexivity.
  - destruct t as [|b t]; cbn in *; [discriminate|].
    destruct (ascii_dec a b); [eauto|discriminate].
Qed.

End JsFacts.

(** ** The store *)

Module DbFacts.
Import Js Db.

Lemma filter_none {A} (f : A -> bool) (l : list A) :
  (forall x, In x l -> f x = false) -> filter f l = [].
Proof.
  induction l as [|a l IH]; intros H; cbn; [reflexivity|].
  rewrite (H a (or_introl eq_refl)). apply IH. intros x Hx. apply H. now right.
Qed.

Lemma filter_all {A} (f : A -> bool) (l : list A) :
  (forall x, In x l -> f x = true) -> filter f l = l.
Proof.
  induction l as [|a l IH]; intros H; cbn; [reflexivity|].
  rewrite (H a (or_introl eq_refl)). f_equal. apply IH.
  intros x Hx. apply H. now right.
Qed.

Lemma map_unowned (id uid : Z) (f : Post -> Post) (l : list Post) :
  (forall p, In p l -> owned id uid p = false) ->
  map (fun p => if owned id uid p then f p else p) l = l.
Proof.
  induction l as [|a l IH]; intros H; cbn; [reflexivity|].
  rewrite (H a (or_introl eq_refl)). f_equal. apply IH.
  intros x Hx. apply H. now right.
Qed.

Lemma set_posts_same (d : Database) : set_posts (posts d) d = d.
Proof. destruct d; reflexivity. Qed.

Lemma set_attachments_same (d : Database) :
  set_attachments (attachments d) d = d.
Proof. destruct d; reflexivity. Qed.

(** An UPDATE that hits no row leaves the tables as they are. *)
Lemma exec_update_miss (now : Z) (t d c : option string) (id uid : Z)
      (db : Database) :
  (forall p, In p (posts db) -> owned id uid p = false) ->
  exec now (UpdatePost t d c id uid) db None = (Some (PostRows []), db, None).
Proof.
  intros H. cbn. rewrite (filter_none _ _ H), (map_unowned _ _ _ _ H).
  rewrite set_posts_same. reflexivity.
Qed.

(** A DELETE that hits no row leaves the tables as they are. *)
Lemma exec_delete_miss (now : Z) (id uid : Z) (db : Database) :
  (forall p, In p (posts db) -> owned id uid p = false) ->
  exec now (DeletePost id uid) db None = (Some (PostRows []), db, None).
Proof.
  intros H. cbn. rewrite (filter_none _ _ H).
  rewrite (filter_all (fun p => negb (owned id uid p))).
  2:{ intros p Hp. now rewrite (H p Hp). }
  rewrite filter_all by reflexivity.
  rewrite set_posts_same, set_attachments_same. reflexivity.
Qed.

(** After a DELETE for [(id, uid)] no row of the table matches it. *)
Lemma deleted_unowned (id uid : Z) (l : list Post) (p : Post) :
  In p (filter (fun p => negb (owned id uid p)) l) -> owned id uid p = false.
Proof.
  intros H. apply filter_In in H as [_ H]. now apply negb_true_iff in H.
Qed.

End DbFacts.

(** ** The attachment insert and the upload loop *)

Module RunFacts.
Import Js Db Rt Http Auth Posts Users Runs.

Lemma nth_error_pairs (pre : list Descriptor) (d : Descriptor)
      (rest : list Descriptor) :
  nth_error (flat_map (fun att => [VText (url att); VText (type att)]) (pre ++ d :: rest)) (List.length pre * 2)
  = Some (VText (url d))
  /\ nth_error (flat_map (fun att => [VText (url att); VText (type att)]) (pre ++ d :: rest)) (S (List.length pre * 2))
     = Some (VText (type d)).
Proof.
  induction pre as [|a pre IH]; cbn; [split; reflexivity|exact IH].
Qed.

Lemma param_values (postId : Z) (pre : list Descriptor) (d : Descriptor)
      (rest : list Descriptor) :
  param (values postId (pre ++ d :: rest)) 1 = Some (VInt postId)
  /\ param (values postId (pre ++ d :: rest)) (List.length pre * 2 + 2)
     = Some (VText (url d))
  /\ param (values postId (pre ++ d :: rest)) (List.length pre * 2 + 3)
     = Some (VText (type d)).
Proof.
  replace (List.length pre * 2 + 2)%nat
    with (S (S (List.length pre * 2))) by lia.
  replace (List.length pre * 2 + 3)%nat
    with (S (S (S (List.length pre * 2)))) by lia.
  split; [reflexivity|split].
  - exact (proj1 (nth_error_pairs pre d rest)).
  - exact (proj2 (nth_error_pairs pre d rest)).
Qed.

Lemma attachments_of_from (postId : Z) (ds pre : list Descriptor) (id : Z) :
  attachments_of (values postId (pre ++ ds)) id
    (map (fun i => (1, i * 2 + 2, i * 2 + 3))%nat
         (seq (List.length pre) (List.length ds)))
  = Some (rows_of id postId ds).
Proof.
  revert pre id. induction ds as [|d ds IH]; intros pre id; [reflexivity|].
  cbn [List.length seq map attachments_of rows_of].
  specialize (IH (pre ++ [d])%list (id + 1)).
  rewrite <- app_assoc, length_app in IH. cbn [app List.length] in IH.
  rewrite Nat.add_1_r in IH. rewrite IH.
  unfold attachment_of.
  destruct (param_values postId pre d ds) as (-> & -> & ->). reflexivity.
Qed.

(** The statement the handler builds is well formed: its placeholders
    name exactly the parameters pushed, one row per descriptor. *)
Lemma attachments_of_values (postId id : Z) (ds : list Descriptor) :
  attachments_of (values postId ds) id (placeholders ds)
  = Some (rows_of id postId ds).
Proof. exact (attachments_of_from postId ds [] id). Qed.

Lemma values_length (postId : Z) (ds : list Descriptor) :
  List.length (values postId ds) = S (2 * List.length ds).
Proof.
  unfold values. cbn [List.length]. f_equal.
  induction ds as [|d ds IH]; cbn [flat_map List.length app]; lia.
Qed.

Lemma placeholders_length (ds : list Descriptor) :
  List.length (placeholders ds) = List.length ds.
Proof. unfold placeholders. now rewrite length_map, length_seq. Qed.

Lemma rows_of_length (id postId : Z) (ds : list Descriptor) :
  List.length (rows_of id postId ds) = List.length ds.
Proof.
  revert id. induction ds as [|d ds IH]; intros id; cbn; [|rewrite IH];
    reflexivity.
Qed.

Lemma rows_of_post_id (id postId : Z) (ds : list Descriptor) :
  map a_post_id (rows_of id postId ds) = map (fun _ => postId) ds.
Proof.
  revert id. induction ds as [|d ds IH]; intros id; cbn; [|rewrite IH];
    reflexivity.
Qed.

Lemma rows_of_url (id postId : Z) (ds : list Descriptor) :
  map a_url (rows_of id postId ds) = map url ds.
Proof.
  revert id. induction ds as [|d ds IH]; intros id; cbn; [|rewrite IH];
    reflexivity.
Qed.

Lemma rows_of_type (id postId : Z) (ds : list Descriptor) :
  map a_type (rows_of id postId ds) = map type ds.
Proof.
  revert id. induction ds as [|d ds IH]; intros id; cbn; [|rewrite IH];
    reflexivity.
Qed.

Lemma rows_of_id (id postId : Z) (ds : list Descriptor) :
  map a_id (rows_of id postId ds)
  = map (fun i => id + Z.of_nat i) (seq 0 (List.length ds)).
Proof.
  revert id. induction ds as [|d ds IH]; intros id; [reflexivity|].
  cbn [rows_of map List.length seq a_id]. f_equal; [lia|].
  rewrite IH, <- seq_shift, map_map. apply map_ext. intros i. lia.
Qed.

(** The attachment insert of the handler, on descriptors that exist, in a
    transaction that has not failed. *)
Lemma exec_insert_attachments (now postId : Z) (ds : list Descriptor)
      (d : Database) (t : Tx) :
  ds <> [] -> tx_aborted t = false ->
  exec now (InsertAttachments (placeholders ds) (values postId ds)) d (Some t)
  = (Some NoRows,
     bump_attachments_seq (Z.of_nat (List.length ds)) d,
     Some (mkTx (tx_posts t)
                (tx_attachments t ++ rows_of (attachments_seq d) postId ds)
                false)).
Proof.
  intros Hds Ht. unfold exec. cbn [in_failed_tx is_control negb].
  rewrite Ht. cbn [andb].
  destruct (placeholders ds) as [|ph phs] eqn:E.
  - apply (f_equal (@List.length _)) in E.
    rewrite placeholders_length in E. destruct ds; [congruence|discriminate].
  - rewrite <- E, values_length, placeholders_length, Nat.eqb_refl.
    rewrite attachments_of_values. unfold add_attachments.
    rewrite rows_of_length, Ht. reflexivity.
Qed.


Lemma upload_pair_shift (env : Env) (k : nat) (f : File) (rest : list File)
      (a n : nat) :
  flat_map (upload_pair env k (f :: rest)) (seq (S a) n)
  = flat_map (upload_pair env (S k) rest) (seq a n).
Proof.
  revert a. induction n as [|n IH]; intros a; [reflexivity|].
  cbn [seq flat_map]. rewrite IH. f_equal.
  unfold upload_pair. cbn [nth_error]. now rewrite Nat.add_succ_r.
Qed.

(** The events of the uploads the loop starts, in the order of the files. *)
Lemma upload_pairs_cons (env : Env) (k : nat) (f : File) (rest : list File)
      (n : nat) :
  flat_map (upload_pair env k (f :: rest)) (seq 0 (S n))
  = EvUploadBegin f :: EvUploadEnd (upload_stream env k f)
      :: flat_map (upload_pair env (S k) rest) (seq 0 n).
Proof.
  cbn [seq flat_map]. rewrite upload_pair_shift.
  unfold upload_pair at 1. cbn [nth_error]. now rewrite Nat.add_0_r.
Qed.

(** One run of the loop, whatever the media host answers: the result, the
    uploads counted and the events logged; nothing else changes. *)
Lemma upload_each_run (env : Env) (fs : list File) (acc : list Descriptor)
      (w : World) :
  upload_each env fs acc w
  = (match loop_result env (uploads w) fs with
     | Some ds => Ok (acc ++ ds)%list
     | None => Throw "File upload failed"
     end,
     with_uploads (attempts env (uploads w) fs + uploads w)
       (with_log (log w ++ flat_map (upload_pair env (uploads w) fs)
                                    (seq 0 (attempts env (uploads w) fs)))
                 w)).
Proof.
  revert acc w. induction fs as [|f rest IH]; intros acc w.
  - destruct w. cbn. unfold ret, with_uploads, with_log. cbn.
    now rewrite !app_nil_r.
  - cbn [upload_each loop_result attempts]. rewrite upload_pairs_cons.
    unfold bind, try_catch, upload.
    destruct (upload_stream env (uploads w) f) as [u|] eqn:E.
    + cbn [ret]. rewrite IH. destruct w. cbn.
      destruct (loop_result env (S uploads0) rest) as [ds|]; cbn;
        unfold with_uploads, with_log; cbn;
        rewrite <- !app_assoc, Nat.add_succ_r; reflexivity.
    + destruct w. cbn. unfold throw, with_uploads, with_log. cbn. reflexivity.
Qed.

Lemma loop_result_length (env : Env) (fs : list File) (k : nat)
      (ds : list Descriptor) :
  loop_result env k fs = Some ds -> List.length ds = List.length fs.
Proof.
  revert k ds. induction fs as [|f rest IH]; intros k ds; cbn.
  - intros [= <-]. reflexivity.
  - destruct (upload_stream env k f); [|discriminate].
    destruct (loop_result env (S k) rest) eqn:E; [|discriminate].
    intros [= <-]. cbn. f_equal. eauto.
Qed.

(** Uploads that all succeed: one descriptor per file, in order. *)
Lemma loop_result_all (env : Env) (fs : list File) (k : nat)
      (urls : list string) :
  List.length urls = List.length fs ->
  (forall i f u, nth_error fs i = Some f -> nth_error urls i = Some u ->
                 upload_stream env (k + i) f = Some u) ->
  loop_result env k fs
  = Some (map (fun fu => mkDescriptor (snd fu) (type_of (mimetype (fst fu))))
              (combine fs urls))
  /\ attempts env k fs = List.length fs.
Proof.
  revert k urls. induction fs as [|f rest IH]; intros k urls Hl H.
  - destruct urls; [split; reflexivity|discriminate].
  - destruct urls as [|u urls]; [discriminate|]. injection Hl as Hl.
    cbn [loop_result attempts combine map fst snd List.length].
    pose proof (H 0%nat f u eq_refl eq_refl) as H0.
    rewrite Nat.add_0_r in H0. rewrite H0.
    destruct (IH (S k) urls Hl) as [-> ->]; [|split; reflexivity].
    intros i f' u' Hf Hu. rewrite Nat.add_succ_comm.
    exact (H (S i) f' u' Hf Hu).
Qed.

(** A run that ends with descriptors has seen no upload fail. *)
Lemma loop_result_no_failure (env : Env) (fs : list File) (k : nat)
      (ds : list Descriptor) :
  loop_result env k fs = Some ds ->
  attempts env k fs = List.length fs
  /\ ~ In (EvUploadEnd None)
          (flat_map (upload_pair env k fs) (seq 0 (attempts env k fs))).
Proof.
  revert k ds. induction fs as [|f rest IH]; intros k ds.
  - intros _. split; [reflexivity|intros []].
  - cbn [loop_result attempts]. rewrite upload_pairs_cons.
    destruct (upload_stream env k f) as [u|]; [|discriminate].
    destruct (loop_result env (S k) rest) as [ds'|] eqn:E; [|discriminate].
    intros _. destruct (IH (S k) ds' E) as [Ha Hn]. split.
    + cbn. now rewrite Ha.
    + intros [H|[H|H]]; [discriminate|discriminate|exact (Hn H)].
Qed.

Lemma upload_pairs_are_uploads (env : Env) (fs : list File) (k : nat)
      (l : list nat) :
  filter is_upload (flat_map (upload_pair env k fs) l)
  = flat_map (upload_pair env k fs) l
  /\ filter is_query (flat_map (upload_pair env k fs) l) = [].
Proof.
  induction l as [|i l [IH1 IH2]]; [split; reflexivity|].
  cbn [flat_map]. rewrite !filter_app, IH1, IH2.
  unfold upload_pair. destruct (nth_error fs i); split; reflexivity.
Qed.

End RunFacts.

(** ** Which steps of a handler start an upload *)

Module TraceFacts.
Import Js Db Rt Http Auth Posts Users Runs.
Local Open Scope js_scope.

Lemma attempts_le (env : Env) (fs : list File) (k : nat) :
  (attempts env k fs <= List.length fs)%nat.
Proof.
  revert k. induction fs as [|f rest IH]; intros k; cbn; [lia|].
  destruct (upload_stream env k f); [specialize (IH (S k))|]; lia.
Qed.

(** Every upload the loop starts before its last one has succeeded. *)
Lemma attempts_before_last (env : Env) (fs : list File) (k i : nat)
      (f : File) :
  (S i < attempts env k fs)%nat -> nth_error fs i = Some f ->
  upload_stream env (k + i) f <> None.
Proof.
  revert k i. induction fs as [|g rest IH]; intros k i; cbn [attempts].
  - lia.
  - destruct (upload_stream env k g) as [u|] eqn:E; [|lia].
    destruct i as [|i]; cbn [nth_error].
    + intros _ [= <-]. rewrite Nat.add_0_r. congruence.
    + intros H Hf. rewrite Nat.add_succ_r. apply (IH (S k) i); [lia|exact Hf].
Qed.

Ltac silent_step :=
  intros w; cbn; split; [reflexivity|];
  first [ exists []; split; [now rewrite app_nil_r|reflexivity]
        | eexists [_]; split; reflexivity ].

Lemma silent_ret {A} (a : A) : starts_no_upload (ret a).
Proof. silent_step. Qed.

Lemma silent_throw {A} (m : string) : starts_no_upload (@throw A m).
Proof. silent_step. Qed.

Lemma silent_clock : starts_no_upload clock.
Proof. silent_step. Qed.

Lemma silent_respond (st : Z) (body : Json) : starts_no_upload (respond st body).
Proof. intros w. unfold respond. destruct (res w); revert w; silent_step. Qed.

Lemma silent_release : starts_no_upload release.
Proof. silent_step. Qed.

Lemma silent_connect (env : Env) : starts_no_upload (connect env).
Proof.
  intros w. unfold connect. destruct (db_fault env (stmts w)); revert w;
    silent_step.
Qed.

Lemma silent_query (env : Env) (via : Conn) (s : Stmt) :
  starts_no_upload (query env via s).
Proof.
  intros w. unfold query. destruct (db_fault env (stmts w)).
  - revert w. silent_step.
  - destruct (exec (now w) s (db w) _) as [[[rows|] d'] t']; revert w;
      silent_step.
Qed.

Lemma silent_first_post (r : Rows) : starts_no_upload (first_post r).
Proof. unfold first_post. destruct (post_rows r); silent_step. Qed.

Lemma silent_user_id (req : Request) : starts_no_upload (user_id req).
Proof. unfold user_id. destruct (user req); silent_step. Qed.

Lemma silent_bind {A B} (c : M A) (k : A -> M B) :
  starts_no_upload c -> (forall a, starts_no_upload (k a)) ->
  starts_no_upload (bind c k).
Proof.
  intros Hc Hk w. unfold bind. specialize (Hc w).
  destruct (c w) as [[a|e] w1]; cbn [snd] in *; [|exact Hc].
  destruct Hc as [Hu (evs & Hl & Hf)].
  destruct (Hk a w1) as [Hu2 (evs2 & Hl2 & Hf2)].
  split; [congruence|]. exists (evs ++ evs2)%list.
  now rewrite Hl2, Hl, app_assoc, filter_app, Hf, Hf2.
Qed.

Lemma silent_catch {A} (c : M A) (h : string -> M A) :
  starts_no_upload c -> (forall e, starts_no_upload (h e)) ->
  starts_no_upload (try_catch c h).
Proof.
  intros Hc Hh w. unfold try_catch. specialize (Hc w).
  destruct (c w) as [[a|e] w1]; cbn [snd] in *; [exact Hc|].
  destruct Hc as [Hu (evs & Hl & Hf)].
  destruct (Hh e w1) as [Hu2 (evs2 & Hl2 & Hf2)].
  split; [congruence|]. exists (evs ++ evs2)%list.
  now rewrite Hl2, Hl, app_assoc, filter_app, Hf, Hf2.
Qed.

Create HintDb silent.
#[export] Hint Resolve silent_ret silent_throw silent_clock silent_respond
  silent_release silent_connect silent_query silent_first_post silent_user_id
  : silent.
#[export] Hint Extern 2 (starts_no_upload (bind _ _)) =>
  apply silent_bind; [|intros] : silent.
#[export] Hint Extern 2 (starts_no_upload (try_catch _ _)) =>
  apply silent_catch; [|intros] : silent.

Section Ordered.
Variable env : Env.
Variable fs : list File.

Lemma ordered_silent {A} (c : M A) :
  starts_no_upload c -> uploads_in_order env fs c.
Proof.
  intros Hc w. destruct (Hc w) as [_ (evs & Hl & Hf)].
  exists evs, 0%nat. repeat split; [exact Hl|lia|exact Hf|lia].
Qed.

Lemma ordered_after {A B} (c : M A) (k : A -> M B) :
  starts_no_upload c -> (forall a, uploads_in_order env fs (k a)) ->
  uploads_in_order env fs (bind c k).
Proof.
  intros Hc Hk w. unfold bind. destruct (Hc w) as [Hu (evs & Hl & Hf)].
  destruct (c w) as [[a|e] w1]; cbn [snd] in *.
  - destruct (Hk a w1) as (evs2 & n & Hl2 & Hn & Hf2 & Hok).
    exists (evs ++ evs2)%list, n. rewrite Hu in *.
    repeat split; [now rewrite Hl2, Hl, app_assoc|exact Hn| |exact Hok].
    now rewrite filter_app, Hf, Hf2.
  - exists evs, 0%nat. repeat split; [exact Hl|lia|exact Hf|lia].
Qed.

Lemma ordered_before {A B} (c : M A) (k : A -> M B) :
  uploads_in_order env fs c -> (forall a, starts_no_upload (k a)) ->
  uploads_in_order env fs (bind c k).
Proof.
  intros Hc Hk w. unfold bind.
  destruct (Hc w) as (evs & n & Hl & Hn & Hf & Hok).
  destruct (c w) as [[a|e] w1]; cbn [snd] in *.
  - destruct (Hk a w1) as [_ (evs2 & Hl2 & Hf2)].
    exists (evs ++ evs2)%list, n.
    repeat split; [now rewrite Hl2, Hl, app_assoc|exact Hn| |exact Hok].
    now rewrite filter_app, Hf, Hf2, app_nil_r.
  - exists evs, n. auto.
Qed.

Lemma ordered_catch {A} (c : M A) (h : string -> M A) :
  uploads_in_order env fs c -> (forall e, starts_no_upload (h e)) ->
  uploads_in_order env fs (try_catch c h).
Proof.
  intros Hc Hh w. unfold try_catch.
  destruct (Hc w) as (evs & n & Hl & Hn & Hf & Hok).
  destruct (c w) as [[a|e] w1]; cbn [snd] in *.
  - exists evs, n. auto.
  - destruct (Hh e w1) as [_ (evs2 & Hl2 & Hf2)].
    exists (evs ++ evs2)%list, n.
    repeat split; [now rewrite Hl2, Hl, app_assoc|exact Hn| |exact Hok].
    now rewrite filter_app, Hf, Hf2, app_nil_r.
Qed.

Lemma ordered_finally {A} (c : M A) (fin : M unit) :
  uploads_in_order env fs c -> starts_no_upload fin ->
  uploads_in_order env fs (try_finally c fin).
Proof.
  intros Hc Hfin w. unfold try_finally.
  destruct (Hc w) as (evs & n & Hl & Hn & Hf & Hok).
  destruct (c w) as [r w1]; cbn [snd] in *.
  destruct (Hfin w1) as [_ (evs2 & Hl2 & Hf2)].
  exists (evs ++ evs2)%list, n.
  assert (log (snd (fin w1)) = (log w ++ evs ++ evs2)%list) as E
      by now rewrite Hl2, Hl, app_assoc.
  destruct (fin w1) as [[[]|e] w2]; cbn [snd] in *;
    (repeat split; [exact E|exact Hn| |exact Hok]);
    now rewrite filter_app, Hf, Hf2, app_nil_r.
Qed.

(** The loop itself. *)
Lemma ordered_upload_each (acc : list Descriptor) :
  uploads_in_order env fs (upload_each env fs acc).
Proof.
  intros w. rewrite RunFacts.upload_each_run. cbn [snd].
  eexists _, (attempts env (uploads w) fs).
  repeat split.
  - apply attempts_le.
  - apply RunFacts.upload_pairs_are_uploads.
  - intros i f. apply attempts_before_last.
Qed.

End Ordered.

(** The handler: before the loop and after it no upload is started. *)
Lemma ordered_createPost (env : Env) (req : Request) :
  uploads_in_order env (files req) (createPost env req).
Proof.
  unfold createPost.
  apply ordered_after; [auto with silent|intros userId].
  destruct (falsy (title req) || falsy (description req)
            || falsy (content req));
    [apply ordered_silent; auto with silent|].
  apply ordered_after; [auto with silent|intros _].
  apply ordered_finally; [|auto with silent].
  apply ordered_catch; [|intros e; auto with silent].
  apply ordered_after; [auto with silent|intros _].
  apply ordered_after; [auto with silent|intros postResult].
  apply ordered_after; [auto with silent|intros row0].
  apply ordered_before; [|intros atts; auto with silent].
  destruct (files req) as [|f rest] eqn:E;
    [apply ordered_silent; auto with silent|].
  apply ordered_before; [apply ordered_upload_each|].
  intros atts; auto with silent.
Qed.

End TraceFacts.

(** ** The token middleware *)

Module AuthProofs.
Import Js Db Rt Http Auth Posts Users Sample.
Local Open Scope js_scope.

(** The world after [res.status(st).json(body)] on a fresh response. *)
Lemma respond_fresh (st : Z) (body : Json) (w : World) :
  res w = None ->
  respond st body w
  = (Ok tt, with_res (Some (st, body))
                     (with_log (log w ++ [EvRespond st body]) w)).
Proof. intros H. unfold respond. now rewrite H. Qed.

Lemma verifyToken_missing (env : Env) (req : Request)
      (next : Request -> M unit) (w : World) :
  res w = None -> falsy (token_of req) = true ->
  verifyToken env req next w
  = (Ok tt, with_res (Some (401, msg "Token missing"))
              (with_log (log w ++ [EvRespond 401 (msg "Token missing")]) w)).
Proof.
  intros Hres Hf. unfold verifyToken. rewrite Hf. now apply respond_fresh.
Qed.

Lemma verifyToken_rejected (env : Env) (req : Request)
      (next : Request -> M unit) (w : World) (token : string) :
  res w = None -> token_of req = Some token -> token <> "" ->
  jwt_verify env token (JWT_SECRET env) (now w) = None ->
  verifyToken env req next w
  = (Ok tt, with_res (Some (403, msg "Invalid token"))
              (with_log (log w ++ [EvRespond 403 (msg "Invalid token")]) w)).
Proof.
  intros Hres Ht Hne Hv. unfold verifyToken. rewrite Ht. cbn [falsy].
  apply String.eqb_neq in Hne. rewrite Hne.
  unfold bind, clock. rewrite Hv. now apply respond_fresh.
Qed.

Lemma verifyToken_accepted (env : Env) (req : Request)
      (next : Request -> M unit) (w : World) (token : string)
      (decoded : Claims) :
  token_of req = Some token -> token <> "" ->
  jwt_verify env token (JWT_SECRET env) (now w) = Some decoded ->
  verifyToken env req next w
  = next (with_user decoded req) (with_log (log w ++ [EvNext]) w).
Proof.
  intros Ht Hne Hv. unfold verifyToken. rewrite Ht. cbn [falsy].
  apply String.eqb_neq in Hne. rewrite Hne.
  unfold bind, clock. rewrite Hv. reflexivity.
Qed.

(** The token of a header [scheme token]: the second segment. *)
Lemma token_of_two_segments (req : Request) (scheme token : string) :
  authorization req = Some (scheme ++ " " ++ token) ->
  contains_char " " scheme = false -> contains_char " " token = false ->
  token_of req = Some token.
Proof.
  intros Ha Hs Ht. unfold token_of. rewrite Ha.
  change (scheme ++ " " ++ token) with (scheme ++ String " " token).
  rewrite (JsFacts.split_at_first_sep _ _ _ Hs).
  now rewrite (JsFacts.split_without_sep _ _ Ht).
Qed.

(** A header without a space has no second segment. *)
Lemma token_of_one_segment (req : Request) (h : string) :
  authorization req = Some h -> contains_char " " h = false ->
  token_of req = None.
Proof.
  intros Ha Hh. unfold token_of.
  now rewrite Ha, (JsFacts.split_without_sep _ _ Hh).
Qed.

(** C4. On a protected route the middleware answers 401 and does nothing
    else when the authorization header holds no token (the handlers after
    it play no part in the outcome); it answers 403 when the token does not
    verify; and when the token verifies it calls the rest of the chain on
    the request with the decoded claims attached as [req.user]. *)
Theorem verifyToken_outcomes (env : Env) (req : Request)
        (next : Request -> M unit) (w : World) :
  res w = None ->
  (falsy (token_of req) = true ->
   verifyToken env req next w
   = (Ok tt, with_res (Some (401, msg "Token missing"))
               (with_log (log w ++ [EvRespond 401 (msg "Token missing")]) w)))
  /\ (forall token,
         token_of req = Some token -> token <> "" ->
         jwt_verify env token (JWT_SECRET env) (now w) = None ->
         verifyToken env req next w
         = (Ok tt, with_res (Some (403, msg "Invalid token"))
                     (with_log (log w ++ [EvRespond 403 (msg "Invalid token")])
                               w)))
  /\ (forall token decoded,
         token_of req = Some token -> token <> "" ->
         jwt_verify env token (JWT_SECRET env) (now w) = Some decoded ->
         user (with_user decoded req) = Some decoded
         /\ verifyToken env req next w
            = next (with_user decoded req) (with_log (log w ++ [EvNext]) w)).
Proof.
  intros Hres. split; [|split].
  - now apply verifyToken_missing.
  - intros token. now apply verifyToken_rejected.
  - intros token decoded Ht Hne Hv. split; [reflexivity|].
    now apply verifyToken_accepted with token.
Qed.

Lemma verifyToken_outcomes_witness :
  let w := start empty_db 2000 in
  let req h := post_request h [] in
  let next := fun r : Request => respond 204 (JNum (match user r with
                                                    | Some c => c_id c
                                                    | None => 0
                                                    end)) in
  res w = None
  /\ res (snd (verifyToken quiet (req None) next w))
     = Some (401, msg "Token missing")
  /\ res (snd (verifyToken quiet (req (Some "Bearer p.zz")) next w))
     = Some (403, msg "Invalid token")
  /\ res (snd (verifyToken quiet (req (Some ("Bearer " ++ ann_token))) next w))
     = Some (204, JNum 1).
Proof.
  intros w req next.
  split; [reflexivity|]. split; [|split].
  - rewrite (proj1 (verifyToken_outcomes quiet (req None) next w eq_refl)
               eq_refl).
    reflexivity.
  - rewrite (proj1 (proj2 (verifyToken_outcomes quiet
                             (req (Some "Bearer p.zz")) next w eq_refl))
               "p.zz" eq_refl ltac:(discriminate) eq_refl).
    reflexivity.
  - rewrite (proj2 (proj2 (proj2 (verifyToken_outcomes quiet
                             (req (Some ("Bearer " ++ ann_token))) next w
                             eq_refl))
                     ann_token (mkClaims 1 "ann@x.org" 1000 87400)
                     eq_refl ltac:(discriminate) eq_refl)).
    reflexivity.
Defined.

(** C9. The token is the second space-separated segment of the header and
    the scheme word is never looked at: whatever word without a space
    stands first, a token that verifies is accepted and the chain goes on;
    a header without any space has no second segment and is answered 401,
    whatever the header is, a token that verifies included. *)
Theorem verifyToken_scheme_unchecked (env : Env) (req : Request)
        (next : Request -> M unit) (w : World) (h : string) :
  res w = None ->
  authorization req = Some h ->
  (forall scheme token decoded,
      h = scheme ++ " " ++ token ->
      contains_char " " scheme = false ->
      contains_char " " token = false -> token <> "" ->
      jwt_verify env token (JWT_SECRET env) (now w) = Some decoded ->
      verifyToken env req next w
      = next (with_user decoded req) (with_log (log w ++ [EvNext]) w))
  /\ (contains_char " " h = false ->
      verifyToken env req next w
      = (Ok tt, with_res (Some (401, msg "Token missing"))
                  (with_log (log w ++ [EvRespond 401 (msg "Token missing")])
                            w))).
Proof.
  intros Hres Ha. split.
  - intros scheme token decoded -> Hs Ht Hne Hv.
    apply verifyToken_accepted with token; [|exact Hne|exact Hv].
    now apply token_of_two_segments with scheme.
  - intros Hh. apply verifyToken_missing; [exact Hres|].
    now rewrite (token_of_one_segment req h Ha Hh).
Qed.

Lemma verifyToken_scheme_unchecked_witness :
  let w := start empty_db 2000 in
  let req h := post_request (Some h) [] in
  let next := fun r : Request => respond 204 (JNum (match user r with
                                                    | Some c => c_id c
                                                    | None => 0
                                                    end)) in
  res w = None
  /\ jwt_verify quiet ann_token (JWT_SECRET quiet) (now w)
     = Some (mkClaims 1 "ann@x.org" 1000 87400)
  /\ res (snd (verifyToken quiet (req ("Basic " ++ ann_token)) next w))
     = Some (204, JNum 1)
  /\ res (snd (verifyToken quiet (req ann_token) next w))
     = Some (401, msg "Token missing").
Proof.
  intros w req next.
  split; [reflexivity|]. split; [reflexivity|]. split.
  - rewrite (proj1 (verifyToken_scheme_unchecked quiet
                      (req ("Basic " ++ ann_token)) next w
                      ("Basic " ++ ann_token) eq_refl eq_refl)
               "Basic" ann_token (mkClaims 1 "ann@x.org" 1000 87400)
               eq_refl eq_refl eq_refl ltac:(discriminate) eq_refl).
    reflexivity.
  - rewrite (proj2 (verifyToken_scheme_unchecked quiet (req ann_token) next w
                      ann_token eq_refl eq_refl) eq_refl).
    reflexivity.
Defined.

End AuthProofs.

(** ** The post routes *)

Module PostsProofs.
Import Js Db Rt Http Auth Posts Users Runs Sample.
Local Open Scope js_scope.
Local Open Scope list_scope.

Lemma query_fault (env : Env) (via : Conn) (s : Stmt) (w : World) :
  db_fault env (stmts w) = true ->
  query env via s w
  = (Throw "database error",
     with_store (db w)
       (match via with Client => abort (tx w) | Pool => tx w end)
       (with_log (log w ++ [EvQuery via s false])
                 (with_stmts (S (stmts w)) w))).
Proof. intros H. unfold query. rewrite H. now destruct via. Qed.

Lemma query_pool_ok (env : Env) (s : Stmt) (w : World) (rows : Rows)
      (d' : Database) (t' : option Tx) :
  db_fault env (stmts w) = false ->
  exec (now w) s (db w) None = (Some rows, d', t') ->
  query env Pool s w
  = (Ok rows,
     with_store d' (tx w)
       (with_log (log w ++ [EvQuery Pool s true])
                 (with_stmts (S (stmts w)) w))).
Proof. intros H E. unfold query. now rewrite H, E. Qed.

Lemma unowned_iff (id uid : Z) (l : list Post) :
  (forall p, In p l -> p_id p = id -> p_user_id p <> uid)
  <-> (forall p, In p l -> owned id uid p = false).
Proof.
  unfold owned. split; intros H p Hp.
  - destruct (Z.eqb_spec (p_id p) id) as [E|]; [|reflexivity].
    cbn. apply Z.eqb_neq. now apply H.
  - intros E. specialize (H p Hp). rewrite E, Z.eqb_refl in H.
    now apply Z.eqb_neq in H.
Qed.

Lemma updatePost_miss (env : Env) (req : Request) (w : World) (c : Claims) :
  res w = None -> user req = Some c -> db_fault env (stmts w) = false ->
  (forall p, In p (posts (db w)) ->
             owned (id_param req) (c_id c) p = false) ->
  res (snd (updatePost env req w)) = Some (403, msg "Unauthorized or not found")
  /\ db (snd (updatePost env req w)) = db w.
Proof.
  intros Hres Hu Hf Hmiss.
  assert (exists w', updatePost env req w = (Ok tt, w')
                     /\ res w' = Some (403, msg "Unauthorized or not found")
                     /\ db w' = db w) as (w' & -> & H).
  { unfold updatePost, user_id. rewrite Hu.
    unfold bind at 1. unfold ret at 1. unfold try_catch, bind.
    rewrite (query_pool_ok env _ w _ _ _ Hf
               (DbFacts.exec_update_miss _ _ _ _ _ _ _ Hmiss)).
    cbn [rowCount List.length Nat.eqb]. unfold respond. cbn. rewrite Hres.
    eexists. split; [reflexivity|]. split; reflexivity. }
  exact H.
Qed.

Lemma deletePost_miss (env : Env) (req : Request) (w : World) (c : Claims) :
  res w = None -> user req = Some c -> db_fault env (stmts w) = false ->
  (forall p, In p (posts (db w)) ->
             owned (id_param req) (c_id c) p = false) ->
  res (snd (deletePost env req w)) = Some (403, msg "Unauthorized or not found")
  /\ db (snd (deletePost env req w)) = db w.
Proof.
  intros Hres Hu Hf Hmiss.
  assert (exists w', deletePost env req w = (Ok tt, w')
                     /\ res w' = Some (403, msg "Unauthorized or not found")
                     /\ db w' = db w) as (w' & -> & H).
  { unfold deletePost, user_id. rewrite Hu.
    unfold bind at 1. unfold ret at 1. unfold try_catch, bind.
    rewrite (query_pool_ok env _ w _ _ _ Hf
               (DbFacts.exec_delete_miss _ _ _ _ Hmiss)).
    cbn [rowCount List.length Nat.eqb]. unfold respond. cbn. rewrite Hres.
    eexists. split; [reflexivity|]. split; reflexivity. }
  exact H.
Qed.

(** What a DELETE that went through leaves: the counters moved by one,
    and no post that matches the request. *)
Lemma deletePost_done (env : Env) (req : Request) (w : World) (c : Claims) :
  user req = Some c -> db_fault env (stmts w) = false ->
  let w1 := serve (deletePost env req) w in
  stmts w1 = S (stmts w)
  /\ forall p, In p (posts (db w1)) ->
               owned (id_param req) (c_id c) p = false.
Proof.
  intros Hu Hf w1. subst w1. unfold serve.
  assert (exists r w', deletePost env req (with_res None w) = (r, w')
                       /\ stmts w' = S (stmts w)
                       /\ forall p, In p (posts (db w')) ->
                                    owned (id_param req) (c_id c) p = false)
    as (r & w' & -> & H).
  { unfold deletePost, user_id. rewrite Hu.
    unfold bind at 1. unfold ret at 1. unfold try_catch, bind, query.
    cbn [stmts with_res]. rewrite Hf. cbn [exec in_failed_tx andb].
    cbv zeta.
    destruct (rowCount _ =? 0)%nat; unfold respond; cbn;
      do 2 eexists; (split; [reflexivity|]); (split; [reflexivity|]);
      intros p Hp; exact (DbFacts.deleted_unowned _ _ _ _ Hp). }
  exact H.
Qed.

(** C6. A post creation by an authenticated user that lacks title,
    description or content (absent or empty) is answered 400 and does
    nothing else: no client is checked out, no statement is sent, the
    store and its transaction state are as before. *)
Theorem createPost_missing_field (env : Env) (req : Request) (w : World)
        (c : Claims) :
  res w = None -> user req = Some c ->
  falsy (title req) = true \/ falsy (description req) = true
  \/ falsy (content req) = true ->
  let w' := snd (createPost env req w) in
  res w' = Some (400, msg "Missing required fields")
  /\ log w' = log w ++ [EvRespond 400 (msg "Missing required fields")]
  /\ db w' = db w /\ tx w' = tx w
  /\ checked_out w' = checked_out w /\ stmts w' = stmts w.
Proof.
  intros Hres Hu Hm w'.
  assert (createPost env req w
          = (Ok tt, with_res (Some (400, msg "Missing required fields"))
                      (with_log
                         (log w ++ [EvRespond 400
                                              (msg "Missing required fields")])
                         w))) as E.
  { unfold createPost, user_id. rewrite Hu.
    unfold bind at 1. unfold ret at 1.
    assert (falsy (title req) || falsy (description req)
            || falsy (content req) = true) as ->.
    { destruct Hm as [->|[->| ->]]; now rewrite ?orb_true_r. }
    now apply AuthProofs.respond_fresh. }
  subst w'. rewrite E. repeat split.
Qed.

Lemma createPost_missing_field_witness :
  let req := handler_request ann_claims 0 (Some "T") None (Some "C") [png] in
  let w := start blog 2000 in
  let w' := snd (createPost quiet req w) in
  res w = None /\ user req = Some ann_claims
  /\ falsy (description req) = true
  /\ res w' = Some (400, msg "Missing required fields")
  /\ log w' = log w ++ [EvRespond 400 (msg "Missing required fields")]
  /\ db w' = db w /\ tx w' = tx w
  /\ checked_out w' = checked_out w /\ stmts w' = stmts w.
Proof.
  intros req w w'. split; [reflexivity|]. split; [reflexivity|].
  split; [reflexivity|].
  exact (createPost_missing_field quiet req w ann_claims eq_refl eq_refl
           (or_intror (or_introl eq_refl))).
Defined.

(** C7. An update or a delete by a user who owns no post with the
    requested id (the post is someone else's, or there is none) is answered
    403 and leaves every table as it was; and once a delete has gone
    through, the same delete again, or an update of that post, is answered
    403. *)
Theorem not_owner_forbidden (env : Env) (req : Request) (w : World)
        (c : Claims) :
  user req = Some c -> db_fault env (stmts w) = false ->
  (res w = None ->
   (forall p, In p (posts (db w)) ->
              p_id p = id_param req -> p_user_id p <> c_id c) ->
   (res (snd (updatePost env req w))
    = Some (403, msg "Unauthorized or not found")
    /\ db (snd (updatePost env req w)) = db w)
   /\ (res (snd (deletePost env req w))
       = Some (403, msg "Unauthorized or not found")
       /\ db (snd (deletePost env req w)) = db w))
  /\ (let w1 := serve (deletePost env req) w in
      db_fault env (stmts w1) = false ->
      forall req2,
        id_param req2 = id_param req -> user req2 = Some c ->
        (status (serve (deletePost env req2) w1) = Some 403
         /\ db (serve (deletePost env req2) w1) = db w1)
        /\ (status (serve (updatePost env req2) w1) = Some 403
            /\ db (serve (updatePost env req2) w1) = db w1)).
Proof.
  intros Hu Hf. split.
  - intros Hres Hmiss.
    pose proof (proj1 (unowned_iff _ _ _) Hmiss) as Hm. split.
    + now apply updatePost_miss with c.
    + now apply deletePost_miss with c.
  - intros w1 Hf1 req2 Hid Hu2.
    destruct (deletePost_done env req w c Hu Hf) as [_ Hmiss].
    fold w1 in Hmiss. rewrite <- Hid in Hmiss. unfold serve, status.
    split.
    + destruct (deletePost_miss env req2 (with_res None w1) c eq_refl Hu2 Hf1
                  Hmiss) as [-> ->]. split; reflexivity.
    + destruct (updatePost_miss env req2 (with_res None w1) c eq_refl Hu2 Hf1
                  Hmiss) as [-> ->]. split; reflexivity.
Qed.


Lemma not_owner_forbidden_witness :
  let w := start blog 2000 in
  let by_bob := handler_request bob_claims 1 (Some "x") (Some "y") (Some "z") [] in
  let by_ann := handler_request ann_claims 1 (Some "x") (Some "y") (Some "z") [] in
  let w1 := serve (deletePost quiet by_ann) w in
  (res (snd (updatePost quiet by_bob w))
   = Some (403, msg "Unauthorized or not found")
   /\ db (snd (updatePost quiet by_bob w)) = blog)
  /\ (res (snd (deletePost quiet by_bob w))
      = Some (403, msg "Unauthorized or not found")
      /\ db (snd (deletePost quiet by_bob w)) = blog)
  /\ status w1 = Some 200
  /\ status (serve (deletePost quiet by_ann) w1) = Some 403
  /\ status (serve (updatePost quiet by_ann) w1) = Some 403.
Proof.
  intros w by_bob by_ann w1.
  assert (forall p, In p (posts (db w)) ->
                    p_id p = id_param by_bob -> p_user_id p <> c_id bob_claims)
    as Hmiss.
  { intros p [<-|[<-|[]]]; cbn; intros H; discriminate. }
  destruct (not_owner_forbidden quiet by_bob w bob_claims eq_refl eq_refl)
    as [H _].
  destruct (H eq_refl Hmiss) as [Hput Hdel].
  destruct (not_owner_forbidden quiet by_ann w ann_claims eq_refl eq_refl)
    as [_ H2].
  destruct (H2 eq_refl by_ann eq_refl eq_refl) as [[Hd _] [Hp _]].
  split; [exact Hput|]. split; [exact Hdel|]. split; [reflexivity|].
  split; [exact Hd|exact Hp].
Defined.

Lemma in_map_owned (id uid : Z) (f : Post -> Post) (l : list Post) (p : Post) :
  In p l -> owned id uid p = true ->
  In (f p) (map (fun p => if owned id uid p then f p else p) l).
Proof.
  intros Hp Ho. apply in_map_iff. exists p. now rewrite Ho.
Qed.

(** C10. An update validates nothing: whatever of title, description and
    content the request lacks, the handler sends one UPDATE that carries
    the three values as they came, and answers with what the store said,
    never with 400. When the statement fails the answer is 500 and the
    store is as before; when it goes through for the owner the answer is
    200 and the post holds the values of the request, a missing one as
    NULL. *)
Theorem updatePost_no_validation (env : Env) (req : Request) (w : World)
        (c : Claims) :
  res w = None -> user req = Some c ->
  let s := UpdatePost (title req) (description req) (content req)
                      (id_param req) (c_id c) in
  let w' := snd (updatePost env req w) in
  (exists ok st body,
      log w' = log w ++ [EvQuery Pool s ok; EvRespond st body]
      /\ res w' = Some (st, body) /\ st <> 400)
  /\ (db_fault env (stmts w) = true -> status w' = Some 500 /\ db w' = db w)
  /\ (db_fault env (stmts w) = false ->
      forall p, In p (posts (db w)) ->
                p_id p = id_param req -> p_user_id p = c_id c ->
                status w' = Some 200
                /\ In (mkPost (p_id p) (p_user_id p) (title req)
                              (description req) (content req)
                              (p_created_at p))
                      (posts (db w'))).
Proof.
  intros Hres Hu s w'.
  assert (updatePost env req w
          = try_catch
              (result <- query env Pool s ;;
               if (rowCount result =? 0)%nat
               then respond 403 (msg "Unauthorized or not found")
               else row0 <- first_post result ;;
                    respond 200 (JObj (post_json row0)))
              (fun err =>
                 respond 500 (JObj [("msg", JStr "Update failed");
                                    ("error", JStr err)])) w) as E.
  { unfold updatePost, user_id. rewrite Hu. reflexivity. }
  subst w'. rewrite E. clear E. subst s. unfold try_catch, bind, query.
  destruct (db_fault env (stmts w)) eqn:Hf.
  - unfold respond. cbn. rewrite Hres. cbn.
    split; [|split; [intros _; split; reflexivity|intros [=]]].
    exists false, 500, (JObj [("msg", JStr "Update failed");
                              ("error", JStr "database error")]).
    repeat split; [now rewrite <- app_assoc|discriminate].
  - cbn [exec in_failed_tx andb]. cbv zeta. cbn [rowCount post_rows].
    rewrite length_map.
    destruct (filter (owned (id_param req) (c_id c)) (posts (db w)))
      as [|q hit] eqn:Eh.
    + unfold respond. cbn. rewrite Hres. cbn.
      split; [|split; [intros [=]|]].
      * exists true, 403, (msg "Unauthorized or not found").
        repeat split; [now rewrite <- app_assoc|discriminate].
      * intros _ p Hp Hid Huid.
        assert (In p (filter (owned (id_param req) (c_id c)) (posts (db w))))
          as Hin.
        { apply filter_In. split; [exact Hp|]. unfold owned.
          now rewrite Hid, Huid, !Z.eqb_refl. }
        rewrite Eh in Hin. destruct Hin.
    + unfold first_post, respond, ret. cbn. rewrite Hres. cbn.
      split; [|split; [intros [=]|]].
      * eexists true, 200, _. repeat split; [now rewrite <- app_assoc|discriminate].
      * intros _ p Hp Hid Huid. split; [reflexivity|].
        apply (in_map_owned _ _ (set_text (title req) (description req)
                                          (content req)) _ p Hp).
        unfold owned. now rewrite Hid, Huid, !Z.eqb_refl.
Qed.

Lemma updatePost_no_validation_witness :
  let w := start blog 2000 in
  let req := handler_request ann_claims 1 None (Some "y") None [] in
  let w' := snd (updatePost quiet req w) in
  res w = None /\ user req = Some ann_claims
  /\ db_fault quiet (stmts w) = false
  /\ In ann_post (posts (db w))
  /\ status w' = Some 200
  /\ In (mkPost 1 1 None (Some "y") None 500) (posts (db w')).
Proof.
  intros w req w'.
  split; [reflexivity|]. split; [reflexivity|]. split; [reflexivity|].
  split; [left; reflexivity|].
  exact (proj2 (proj2 (updatePost_no_validation quiet req w ann_claims
                         eq_refl eq_refl))
           eq_refl ann_post (or_introl eq_refl) eq_refl eq_refl).
Defined.

End PostsProofs.

(** ** Post creation: the transaction *)

Module CreateProofs.
Import Js Db Rt Http Auth Posts Users Runs Sample.
Local Open Scope js_scope.
Local Open Scope list_scope.

Lemma query_client_run (env : Env) (s : Stmt) (d : Database) (t : option Tx)
      (co : bool) (n u dr : nat) (nw : Z) (lg : list Event)
      (rs : option (Z * Json)) :
  query env Client s (mkWorld d t co n u dr nw lg rs)
  = if db_fault env n
    then (Throw "database error",
          mkWorld d (abort t) co (S n) u dr nw
                  (lg ++ [EvQuery Client s false]) rs)
    else match exec nw s d t with
         | (Some rows, d', t') =>
             (Ok rows,
              mkWorld d' t' co (S n) u dr nw (lg ++ [EvQuery Client s true]) rs)
         | (None, d', t') =>
             (Throw "database error",
              mkWorld d' (abort t') co (S n) u dr nw
                      (lg ++ [EvQuery Client s false]) rs)
         end.
Proof.
  unfold query. cbn. destruct (db_fault env n); [reflexivity|].
  now destruct (exec nw s d t) as [[[rows|] d'] t'].
Qed.

Lemma createPost_validated (env : Env) (req : Request) (c : Claims) :
  user req = Some c ->
  falsy (title req) = false -> falsy (description req) = false ->
  falsy (content req) = false ->
  createPost env req
  = (connect env ;;
     try_finally
       (try_catch
          (query env Client BEGIN ;;
           postResult <- query env Client
                           (InsertPost (c_id c) (title req) (description req)
                                       (content req)) ;;
           row0 <- first_post postResult ;;
           attachments <-
             match files req with
             | [] => ret []
             | _ :: _ =>
                 attachments <- upload_each env (files req) [] ;;
                 query env Client
                       (InsertAttachments (placeholders attachments)
                                          (values (p_id row0) attachments)) ;;
                 ret attachments
             end ;;
           query env Client COMMIT ;;
           respond 201
             (JObj (set_key "attachments"
                            (JArr (map descriptor_json attachments))
                            (post_json row0))))
          (fun err =>
             query env Client ROLLBACK ;;
             respond 500
               (JObj [("msg", JStr "Post creation failed");
                      ("error", JStr err); ("stack", JStr (stack err))])))
       release).
Proof.
  intros Hu Ht Hd Hc. unfold createPost, user_id. rewrite Hu, Ht, Hd, Hc.
  reflexivity.
Qed.

Ltac norm_log := rewrite <- ?app_assoc; cbn [app].


Lemma loop_result_failed (env : Env) (fs : list File) (k : nat) :
  existsb failed (flat_map (upload_pair env k fs) (seq 0 (attempts env k fs)))
  = match loop_result env k fs with Some _ => false | None => true end.
Proof.
  revert k. induction fs as [|f rest IH]; intros k; [reflexivity|].
  cbn [loop_result attempts]. rewrite RunFacts.upload_pairs_cons.
  cbn [existsb failed]. destruct (upload_stream env k f) as [u|];
    [|reflexivity].
  cbn [orb]. rewrite IH. now destruct (loop_result env (S k) rest).
Qed.

Lemma no_query_in_uploads (env : Env) (fs : list File) (k : nat)
      (l : list nat) (via : Conn) (s : Stmt) (ok : bool) :
  ~ In (EvQuery via s ok) (flat_map (upload_pair env k fs) l).
Proof.
  intros H. apply in_flat_map in H as (i & _ & H). unfold upload_pair in H.
  destruct (nth_error fs i); cbn in H; intuition discriminate.
Qed.

Ltac world := unfold with_checked_out, with_log, with_stmts, with_res,
                with_store, with_uploads;
              cbn [db tx checked_out stmts uploads draws now log res].
Ltac reduce := cbv beta iota zeta;
               cbn [exec in_failed_tx is_control andb negb empty_tx abort
                    tx_aborted tx_posts tx_attachments add_post commit
                    post_rows fst snd app].
Ltac on_fault F :=
  match goal with
  | |- context [if db_fault ?e ?n then _ else _] =>
      destruct (db_fault e n) eqn:F
  end.
Ltac query_step F :=
  unfold bind at 1; rewrite query_client_run; on_fault F; reduce.
Ltac rollback F :=
  unfold bind at 1; rewrite query_client_run; on_fault F; reduce;
  [|unfold respond; cbn [res]]; unfold release; world; reduce.


Ltac tables :=
  cbn [db tx checked_out log res posts attachments bump_posts_seq
       bump_attachments_seq set_posts set_attachments].
Ltac in_log :=
  rewrite <- ?app_assoc; cbn [app];
  repeat first [ left; reflexivity | right
               | apply in_or_app; right ].
Ltac open_leaf :=
  eexists; split; [reflexivity|]; tables; split; [reflexivity|];
  eexists; split; [rewrite <- ?app_assoc; cbn [app]; reflexivity|].
Ltac fails H :=
  cbn [existsb failed orb]; rewrite ?existsb_app, ?H;
  cbn [existsb failed orb]; rewrite ?orb_true_r; reflexivity.
Ltac rolled_back H :=
  open_leaf; right; left;
  split; [fails H|]; split; [reflexivity|]; split; [reflexivity|];
  split; [cbn [In]; rewrite ?in_app_iff; cbn [In]; intuition|];
  split; [reflexivity|]; eexists; reflexivity.
Ltac rollback_failed H :=
  open_leaf; right; right;
  split; [fails H|]; split; [reflexivity|]; split; [reflexivity|];
  split; [cbn [In]; rewrite ?in_app_iff; cbn [In]; intuition|reflexivity].
Ltac failed_leaf H F := rollback F; [rollback_failed H|rolled_back H].

Lemma createPost_outcomes (env : Env) (req : Request) (w : World)
      (c : Claims) :
  res w = None -> tx w = None -> user req = Some c ->
  falsy (title req) = false -> falsy (description req) = false ->
  falsy (content req) = false ->
  db_fault env (stmts w) = false ->
  let p := mkPost (posts_seq (db w)) (c_id c) (title req) (description req)
                  (content req) (now w) in
  exists w',
    snd (createPost env req w) = w'
    /\ checked_out w' = false
    /\ exists evs,
        log w' = log w ++ evs
        /\ ((existsb failed evs = false
             /\ exists ds,
                 loop_result env (uploads w) (files req) = Some ds
                 /\ res w' = Some (201,
                                   JObj (post_json p
                                         ++ [("attachments",
                                              JArr (map descriptor_json ds))]))
                 /\ tx w' = None
                 /\ posts (db w') = posts (db w) ++ [p]
                 /\ attachments (db w')
                    = attachments (db w)
                      ++ rows_of (attachments_seq (db w)) (p_id p) ds)
            \/ (existsb failed evs = true
                /\ posts (db w') = posts (db w)
                /\ attachments (db w') = attachments (db w)
                /\ In (EvQuery Client ROLLBACK true) evs
                /\ tx w' = None
                /\ exists e,
                    res w' = Some (500,
                                   JObj [("msg", JStr "Post creation failed");
                                         ("error", JStr e);
                                         ("stack", JStr (stack e))]))
            \/ (existsb failed evs = true
                /\ posts (db w') = posts (db w)
                /\ attachments (db w') = attachments (db w)
                /\ In (EvQuery Client ROLLBACK false) evs
                /\ res w' = None)).
Proof.
  intros Hres Htx Hu Ht Hd Hc Hconn p. subst p.
  rewrite (createPost_validated env req c Hu Ht Hd Hc).
  destruct w as [d t co n u dr nw lg rs]. cbn in Hres, Htx, Hconn. subst t rs.
  cbn [db tx checked_out stmts uploads now log res].
  unfold bind at 1. unfold connect. cbn [stmts log]. rewrite Hconn. world.
  unfold try_finally, try_catch.
  query_step F1; [failed_leaf F1 F2|].
  query_step F2; [failed_leaf F2 F3|].
  unfold bind at 1. unfold first_post at 1. reduce. unfold ret at 1.
  unfold bind at 1.
  destruct (files req) as [|f rest] eqn:Ef.
  - unfold ret at 1. reduce.
    query_step F3; [failed_leaf F3 F4|].
    unfold respond. cbn [res]. reduce. unfold release. world. reduce.
    open_leaf. left. split; [reflexivity|]. exists []. repeat split.
  - cbv beta iota. remember (f :: rest) as fs eqn:Efs.
    unfold bind at 1. rewrite RunFacts.upload_each_run. world.
    pose proof (loop_result_failed env fs u) as Hl.
    destruct (loop_result env u fs) as [ds|] eqn:El; reduce.
    + assert (ds <> []) as Hds.
      { apply RunFacts.loop_result_length in El. subst fs.
        destruct ds; [discriminate|congruence]. }
      unfold bind at 1. rewrite query_client_run.
      on_fault F3; [reduce; failed_leaf F3 F4|].
      rewrite RunFacts.exec_insert_attachments by (exact Hds || reflexivity).
      reduce. unfold ret at 1. reduce.
      query_step F4; [failed_leaf F4 F5|].
      unfold respond. cbn [res]. reduce. unfold release. world. reduce.
      open_leaf. left. split; [fails Hl|]. exists ds. repeat split.
    + failed_leaf Hl F3.
Qed.

(** C1. Once a client is checked out, a post creation in which a step
    fails (the store refuses BEGIN, an insert or COMMIT, or the media host
    refuses an upload) leaves the posts and attachments tables as they were
    and sends ROLLBACK; when that ROLLBACK goes through, the transaction is
    closed and the answer is 500 with the message of the failure. *)
Theorem createPost_failure_rolls_back (env : Env) (req : Request) (w : World)
        (c : Claims) :
  res w = None -> tx w = None -> user req = Some c ->
  falsy (title req) = false -> falsy (description req) = false ->
  falsy (content req) = false ->
  db_fault env (stmts w) = false ->
  let w' := snd (createPost env req w) in
  exists evs,
    log w' = log w ++ evs
    /\ (existsb failed evs = true ->
        posts (db w') = posts (db w)
        /\ attachments (db w') = attachments (db w)
        /\ (~ In (EvQuery Client ROLLBACK false) evs ->
            In (EvQuery Client ROLLBACK true) evs
            /\ tx w' = None
            /\ exists e,
                res w' = Some (500,
                               JObj [("msg", JStr "Post creation failed");
                                     ("error", JStr e);
                                     ("stack", JStr (stack e))]))).
Proof.
  intros Hres Htx Hu Ht Hd Hc Hconn w'.
  destruct (createPost_outcomes env req w c Hres Htx Hu Ht Hd Hc Hconn)
    as (w1 & E & _ & evs & Hlog & H).
  subst w'. rewrite E. exists evs. split; [exact Hlog|]. intros Hfail.
  destruct H as [[Hno _]|[(_ & Hp & Ha & Hrb & Htx' & Hr)|(_ & Hp & Ha & Hrb & _)]].
  - congruence.
  - split; [exact Hp|]. split; [exact Ha|]. intros _. auto.
  - split; [exact Hp|]. split; [exact Ha|]. intros Hn. now destruct Hn.
Qed.

Lemma createPost_failure_rolls_back_witness :
  let env := failing (fun _ => false) (fun n => Nat.eqb n 1) in
  let req := handler_request ann_claims 0 (Some "T") (Some "D") (Some "C")
                             [png; mp4; pdf] in
  let w := start blog 2000 in
  let w' := snd (createPost env req w) in
  (res w = None /\ tx w = None /\ user req = Some ann_claims
   /\ db_fault env (stmts w) = false)
  /\ In (EvUploadEnd None) (log w')
  /\ posts (db w') = posts blog /\ attachments (db w') = attachments blog
  /\ In (EvQuery Client ROLLBACK true) (log w')
  /\ tx w' = None /\ status w' = Some 500.
Proof.
  intros env req w w'.
  split; [repeat split|].
  split; [vm_compute; tauto|].
  destruct (createPost_failure_rolls_back env req w ann_claims
              eq_refl eq_refl eq_refl eq_refl eq_refl eq_refl eq_refl)
    as (evs & Hlog & H).
  change (log w' = evs) in Hlog. subst evs.
  destruct (H eq_refl) as (Hp & Ha & Hrb).
  destruct Hrb as (Hin & Htx & e & Hres).
  { vm_compute. intuition discriminate. }
  split; [exact Hp|]. split; [exact Ha|]. split; [exact Hin|].
  split; [exact Htx|]. unfold status, w'. now rewrite Hres.
Defined.

(** C3. Within one post creation the uploads are those of the first [n]
    files of the request, for some [n]: the log holds, for the files in
    their order, the start of the upload and then its end, the next upload
    starting only after the end of the one before; and every upload but
    the last one started has succeeded, so after a failed upload none is
    started. *)
Theorem uploads_sequential (env : Env) (req : Request) (w : World) :
  exists evs n,
    log (snd (createPost env req w)) = log w ++ evs
    /\ (n <= List.length (files req))%nat
    /\ filter is_upload evs
       = flat_map
           (fun i =>
              match nth_error (files req) i with
              | Some f =>
                  [EvUploadBegin f;
                   EvUploadEnd (upload_stream env (uploads w + i) f)]
              | None => []
              end)
           (seq 0 n)
    /\ (forall i f, (S i < n)%nat -> nth_error (files req) i = Some f ->
                    upload_stream env (uploads w + i) f <> None).
Proof. exact (TraceFacts.ordered_createPost env req w). Qed.


(** *** The upload middleware *)

Lemma fileFilter_cases (f : File) :
  fileFilter f = Ok true \/ fileFilter f = Throw "Invalid file type".
Proof. unfold fileFilter. destruct (some _ _); auto. Qed.

Lemma fileFilter_allowed (f : File) :
  fileFilter f = Ok true
  <-> (startsWith (mimetype f) "image/" = true
       \/ startsWith (mimetype f) "video/" = true
       \/ startsWith (mimetype f) "application/pdf" = true).
Proof.
  unfold fileFilter, some. cbn [existsb].
  destruct (startsWith (mimetype f) "image/");
    destruct (startsWith (mimetype f) "video/");
    destruct (startsWith (mimetype f) "application/pdf"); cbn;
    intuition discriminate.
Qed.

(** Parts that are all under the expected field, of an allowed type and
    within the size limit, and not too many, are all kept, in order. *)
Lemma multer_accepts (name : string) (left : nat) (ps : list File) :
  Forall (fun f => fieldname f = name /\ fileFilter f = Ok true
                   /\ size f <= fileSize) ps ->
  (List.length ps <= left)%nat ->
  multer name left ps = Ok ps.
Proof.
  revert left. induction ps as [|f rest IH]; intros left Hv Hl;
    [reflexivity|].
  inversion Hv as [|? ? (Hn & Hf & Hs) Hrest]; subst.
  cbn [multer]. rewrite String.eqb_refl. cbn [negb].
  destruct left as [|left]; [cbn in Hl; lia|].
  rewrite Hf. apply Z.ltb_ge in Hs. rewrite Hs.
  rewrite IH; [reflexivity|exact Hrest|cbn in Hl; lia].
Qed.

(** A part of a type that is not allowed, or over the size limit, ends the
    parsing with an error, whatever else the request holds. *)
Lemma multer_rejects (name : string) (left : nat) (ps : list File) :
  Exists (fun f => fileFilter f <> Ok true \/ fileSize < size f) ps ->
  exists e, multer name left ps = Throw e
            /\ (e = "Unexpected field" \/ e = "Invalid file type"
                \/ e = "File too large").
Proof.
  revert left. induction ps as [|f rest IH]; intros left Hb;
    [inversion Hb|].
  cbn [multer].
  destruct (negb (String.eqb (fieldname f) name)); [eauto|].
  destruct left as [|left]; [eauto|].
  destruct (fileFilter_cases f) as [Hf|Hf]; rewrite Hf; [|eauto 6].
  destruct (fileSize <? size f) eqn:Hs; [eauto 6|].
  apply Z.ltb_ge in Hs.
  inversion Hb as [? ? [H|H]|? ? Hrest]; subst; [congruence|lia|].
  destruct (IH left Hrest) as (e & -> & He). eauto.
Qed.

Lemma prefix_head (a : ascii) (p s : string) :
  String.prefix (String a p) s = true -> exists s', s = String a s'.
Proof.
  destruct s as [|b s]; cbn; [discriminate|].
  destruct (ascii_dec a b) as [->|]; [eauto|discriminate].
Qed.

(** For a type the filter lets through, the type recorded is the one of
    its prefix: image, else video, else pdf. *)
Lemma type_of_allowed (m : string) :
  startsWith m "image/" = true \/ startsWith m "video/" = true
  \/ startsWith m "application/pdf" = true ->
  type_of m
  = if startsWith m "image/" then "image"
    else if startsWith m "video/" then "video" else "pdf".
Proof.
  unfold type_of, startsWith.
  destruct (String.prefix "image/" m) eqn:Ei.
  - intros _. now rewrite (JsFacts.prefix_app "image" "/" m Ei).
  - destruct (String.prefix "video/" m) eqn:Ev.
    + intros _. rewrite (JsFacts.prefix_app "video" "/" m Ev).
      destruct (prefix_head _ _ _ Ev) as (m' & ->). reflexivity.
    + intros [H|[H|H]]; [discriminate|discriminate|].
      destruct (prefix_head _ _ _ H) as (m' & ->). reflexivity.
Qed.

(** A request with a token that verifies and parts that multer keeps
    reaches the handler, with [req.user] and [req.files] set. *)
Lemma POST_posts_reaches_handler (env : Env) (req : Request) (w : World)
      (token : string) (c : Claims) (fs : list File) :
  token_of req = Some token -> token <> "" ->
  jwt_verify env token (JWT_SECRET env) (now w) = Some c ->
  multer "files" 5 (parts req) = Ok fs ->
  POST_posts env req w
  = createPost env (with_files fs (with_user c req))
               (with_log (log w ++ [EvNext; EvNext]) w).
Proof.
  intros Ht Hne Hv Hm. unfold POST_posts.
  rewrite (AuthProofs.verifyToken_accepted env req _ w token c Ht Hne Hv).
  unfold upload_array. cbn [parts with_user]. rewrite Hm.
  unfold bind, emit. destruct w. world. now rewrite <- app_assoc.
Qed.

(** With parts that multer refuses, the error goes to the error handling
    of the application; the handler is not run. *)
Lemma POST_posts_refused (env : Env) (req : Request) (w : World)
      (token : string) (c : Claims) (e : string) :
  token_of req = Some token -> token <> "" ->
  jwt_verify env token (JWT_SECRET env) (now w) = Some c ->
  multer "files" 5 (parts req) = Throw e ->
  POST_posts env req w
  = error_handler env e (with_log (log w ++ [EvNext; EvNextErr e]) w).
Proof.
  intros Ht Hne Hv Hm. unfold POST_posts.
  rewrite (AuthProofs.verifyToken_accepted env req _ w token c Ht Hne Hv).
  unfold upload_array. cbn [parts with_user]. rewrite Hm.
  unfold bind, emit. destruct w. world. now rewrite <- app_assoc.
Qed.

(** *** The run without a failure *)

Lemma createPost_success (env : Env) (req : Request) (w : World) (c : Claims)
      (ds : list Descriptor) :
  res w = None -> tx w = None -> user req = Some c ->
  falsy (title req) = false -> falsy (description req) = false ->
  falsy (content req) = false ->
  (forall i, (i <= 4)%nat -> db_fault env (stmts w + i) = false) ->
  loop_result env (uploads w) (files req) = Some ds ->
  let p := mkPost (posts_seq (db w)) (c_id c) (title req) (description req)
                  (content req) (now w) in
  exists w',
    snd (createPost env req w) = w'
    /\ posts (db w') = posts (db w) ++ [p]
    /\ attachments (db w')
       = attachments (db w) ++ rows_of (attachments_seq (db w)) (p_id p) ds
    /\ res w' = Some (201,
                      JObj (post_json p
                            ++ [("attachments",
                                 JArr (map descriptor_json ds))]))
    /\ tx w' = None /\ checked_out w' = false.
Proof.
  intros Hres Htx Hu Ht Hd Hc Hok Hup p. subst p.
  rewrite (createPost_validated env req c Hu Ht Hd Hc).
  destruct w as [d t co n u dr nw lg rs].
  cbn in Hres, Htx, Hok, Hup. subst t rs.
  pose proof (Hok 0%nat ltac:(lia)) as H0. rewrite Nat.add_0_r in H0.
  pose proof (Hok 1%nat ltac:(lia)) as H1. rewrite Nat.add_1_r in H1.
  pose proof (Hok 2%nat ltac:(lia)) as H2.
  replace (n + 2)%nat with (S (S n)) in H2 by lia.
  pose proof (Hok 3%nat ltac:(lia)) as H3.
  replace (n + 3)%nat with (S (S (S n))) in H3 by lia.
  pose proof (Hok 4%nat ltac:(lia)) as H4.
  replace (n + 4)%nat with (S (S (S (S n)))) in H4 by lia.
  cbn [db tx checked_out stmts uploads now log res].
  unfold bind at 1. unfold connect. cbn [stmts log]. rewrite H0. world.
  unfold try_finally, try_catch.
  query_step F1; [congruence|].
  query_step F2; [congruence|].
  unfold bind at 1. unfold first_post at 1. reduce. unfold ret at 1.
  unfold bind at 1.
  destruct (files req) as [|f rest] eqn:Ef.
  - cbn in Hup. injection Hup as <-.
    unfold ret at 1. reduce.
    query_step F3; [congruence|].
    unfold respond. cbn [res]. reduce. unfold release. world. reduce.
    eexists. split; [reflexivity|]. tables. repeat split.
  - cbv beta iota. remember (f :: rest) as fs eqn:Efs.
    unfold bind at 1. rewrite RunFacts.upload_each_run. world.
    rewrite Hup. reduce.
    assert (ds <> []) as Hds.
    { apply RunFacts.loop_result_length in Hup. subst fs.
      destruct ds; [discriminate|congruence]. }
    unfold bind at 1. rewrite query_client_run. rewrite H3.
    rewrite RunFacts.exec_insert_attachments by (exact Hds || reflexivity).
    reduce. unfold ret at 1. reduce.
    query_step F4; [congruence|].
    unfold respond. cbn [res]. reduce. unfold release. world. reduce.
    eexists. split; [reflexivity|]. tables. repeat split.
Qed.

Lemma map_fst_combine {A B} (l : list A) (l' : list B) :
  List.length l' = List.length l -> map fst (combine l l') = l.
Proof.
  revert l'. induction l as [|a l IH]; intros [|b l'] H; cbn in *;
    try discriminate; [reflexivity|]. f_equal. apply IH. lia.
Qed.

Lemma map_snd_combine {A B} (l : list A) (l' : list B) :
  List.length l' = List.length l -> map snd (combine l l') = l'.
Proof.
  revert l'. induction l as [|a l IH]; intros [|b l'] H; cbn in *;
    try discriminate; [reflexivity|]. f_equal. apply IH. lia.
Qed.


(** C2. A post creation with a token that verifies, the three fields
    present and parts that are all valid files (at most five, each under
    the field [files], of an allowed type, within the size limit), served
    while nothing fails: one post row is committed, with the user of the
    token as its author; one attachment row per file is committed, in the
    order of the files, each with the id of the new post, the URL the media
    host gave and the type of the file's MIME prefix (image, else video,
    else pdf); the answer is 201 with the post merged with the array of
    [{url, type}] descriptors, which is empty when there is no file. *)
Theorem createPost_commits (env : Env) (req : Request) (w : World)
        (token : string) (c : Claims) (urls : list string) :
  tx w = None ->
  token_of req = Some token -> token <> "" ->
  jwt_verify env token (JWT_SECRET env) (now w) = Some c ->
  falsy (title req) = false -> falsy (description req) = false ->
  falsy (content req) = false ->
  Forall (fun f => fieldname f = "files"
                   /\ (startsWith (mimetype f) "image/" = true
                       \/ startsWith (mimetype f) "video/" = true
                       \/ startsWith (mimetype f) "application/pdf" = true)
                   /\ size f <= fileSize) (parts req) ->
  (List.length (parts req) <= 5)%nat ->
  (forall i, (i <= 4)%nat -> db_fault env (stmts w + i) = false) ->
  List.length urls = List.length (parts req) ->
  (forall i f u, nth_error (parts req) i = Some f ->
                 nth_error urls i = Some u ->
                 upload_stream env (uploads w + i) f = Some u) ->
  let w' := serve (POST_posts env req) w in
  let p := mkPost (posts_seq (db w)) (c_id c) (title req) (description req)
                  (content req) (now w) in
  posts (db w') = posts (db w) ++ [p]
  /\ (exists rows,
         attachments (db w') = attachments (db w) ++ rows
         /\ List.length rows = List.length (parts req)
         /\ map a_post_id rows = map (fun _ => p_id p) (parts req)
         /\ map a_url rows = urls
         /\ map a_type rows
            = map (fun f =>
                     if startsWith (mimetype f) "image/" then "image"
                     else if startsWith (mimetype f) "video/" then "video"
                          else "pdf") (parts req))
  /\ res w'
     = Some (201,
             JObj (post_json p
                   ++ [("attachments",
                        JArr (map (fun fu =>
                                     JObj [("url", JStr (snd fu));
                                           ("type",
                                            JStr (type_of
                                                    (mimetype (fst fu))))])
                                  (combine (parts req) urls)))])).
Proof.
  intros Htx Ht Hne Hv Hti Hde Hco Hvalid Hn Hok Hlen Hup w' p.
  assert (multer "files" 5 (parts req) = Ok (parts req)) as Hm.
  { apply multer_accepts; [|exact Hn].
    eapply Forall_impl; [|exact Hvalid].
    intros f (Hf & Ha & Hs). now rewrite fileFilter_allowed. }
  destruct (RunFacts.loop_result_all env (parts req) (uploads w) urls Hlen Hup)
    as [Hds _].
  set (ds := map (fun fu => mkDescriptor (snd fu)
                                         (type_of (mimetype (fst fu))))
                 (combine (parts req) urls)) in Hds.
  subst w'. unfold serve.
  rewrite (POST_posts_reaches_handler env req (with_res None w) token c
             (parts req) Ht Hne Hv Hm).
  destruct (createPost_success env
              (with_files (parts req) (with_user c req))
              (with_log (log (with_res None w) ++ [EvNext; EvNext])
                        (with_res None w))
              c ds eq_refl Htx eq_refl Hti Hde Hco Hok Hds)
    as (w1 & -> & Hp & Ha & Hr & _).
  split; [exact Hp|]. split.
  - exists (rows_of (attachments_seq (db w)) (p_id p) ds).
    split; [exact Ha|].
    rewrite RunFacts.rows_of_length, RunFacts.rows_of_post_id,
      RunFacts.rows_of_url, RunFacts.rows_of_type.
    unfold ds. rewrite !length_map, !map_map. cbn [url type].
    rewrite length_combine, Hlen, Nat.min_id.
    split; [reflexivity|]. split.
    { rewrite <- (map_fst_combine (parts req) urls Hlen) at 2.
      now rewrite map_map. }
    split; [now apply map_snd_combine|].
    rewrite <- (map_fst_combine (parts req) urls Hlen) at 2.
    rewrite map_map. apply map_ext_in. intros [f u] Hin. cbn [fst].
    apply in_combine_l in Hin. rewrite Forall_forall in Hvalid.
    destruct (Hvalid f Hin) as (_ & Hall & _). now apply type_of_allowed.
  - rewrite Hr. unfold ds. now rewrite map_map.
Qed.

Lemma createPost_commits_witness :
  let req := post_request (Some ("Bearer " ++ ann_token)%string) [png; mp4; pdf] in
  let w := start blog 2000 in
  let w' := serve (POST_posts quiet req) w in
  let p := mkPost 3 1 (Some "T") (Some "D") (Some "C") 2000 in
  (tx w = None /\ token_of req = Some ann_token
   /\ jwt_verify quiet ann_token (JWT_SECRET quiet) (now w) = Some ann_claims)
  /\ posts (db w') = [ann_post; bob_post; p]
  /\ (exists rows,
         attachments (db w') = ann_picture :: rows
         /\ List.length rows = 3%nat
         /\ map a_post_id rows = [3; 3; 3]
         /\ map a_url rows = ["https://media/a.png"; "https://media/b.mp4";
                              "https://media/c.pdf"]
         /\ map a_type rows = ["image"; "video"; "pdf"])
  /\ status w' = Some 201.
Proof.
  intros req w w' p.
  split; [repeat split|].
  assert (forall i f u,
             nth_error (parts req) i = Some f ->
             nth_error ["https://media/a.png"; "https://media/b.mp4";
                        "https://media/c.pdf"] i = Some u ->
             upload_stream quiet (uploads w + i) f = Some u) as Hup.
  { intros [|[|[|i]]] f u; cbn; intros Hf Hu;
      [injection Hf as <-; injection Hu as <-; reflexivity ..
      |destruct i; discriminate]. }
  assert (Forall (fun f => fieldname f = "files"
                   /\ (startsWith (mimetype f) "image/" = true
                       \/ startsWith (mimetype f) "video/" = true
                       \/ startsWith (mimetype f) "application/pdf" = true)
                   /\ size f <= fileSize) (parts req)) as Hvalid.
  { repeat constructor; cbn; auto; vm_compute; discriminate. }
  destruct (createPost_commits quiet req w ann_token ann_claims
              ["https://media/a.png"; "https://media/b.mp4";
               "https://media/c.pdf"]
              eq_refl eq_refl ltac:(discriminate) eq_refl
              eq_refl eq_refl eq_refl Hvalid ltac:(cbn; lia)
              ltac:(reflexivity) eq_refl Hup)
    as (Hp & Hrows & Hres).
  split; [exact Hp|]. split; [exact Hrows|].
  unfold status, w'. now rewrite Hres.
Defined.

(** C5. A post creation with a token that verifies and a part whose type
    is none of image/, video/ and application/pdf, or whose size is over
    10 MB, does not reach the handler: the upload middleware ends with an
    error (the file type, the size, or a part it did not expect before
    that one) and passes it on with [next(err)], and what is answered is
    the business of the application's error handling. Up to that point
    nothing has been asked of the store. *)
Theorem bad_file_goes_to_error_handler (env : Env) (req : Request)
        (w : World) (token : string) (c : Claims) :
  token_of req = Some token -> token <> "" ->
  jwt_verify env token (JWT_SECRET env) (now w) = Some c ->
  Exists (fun f => (startsWith (mimetype f) "image/" = false
                    /\ startsWith (mimetype f) "video/" = false
                    /\ startsWith (mimetype f) "application/pdf" = false)
                   \/ 10 * 1024 * 1024 < size f) (parts req) ->
  exists e,
    (e = "Unexpected field" \/ e = "Invalid file type"
     \/ e = "File too large")
    /\ let handed := with_log (log w ++ [EvNext; EvNextErr e]) w in
       POST_posts env req w = error_handler env e handed
       /\ db handed = db w /\ tx handed = tx w /\ stmts handed = stmts w
       /\ checked_out handed = checked_out w.
Proof.
  intros Ht Hne Hv Hbad.
  destruct (multer_rejects "files" 5 (parts req)) as (e & Hm & He).
  { eapply Exists_impl; [|exact Hbad]. intros f [(Hi & Hvi & Hp)|Hs].
    - left. rewrite fileFilter_allowed, Hi, Hvi, Hp. intuition discriminate.
    - right. exact Hs. }
  exists e. split; [exact He|]. cbv zeta. split; [|repeat split].
  now apply POST_posts_refused with token c.
Qed.

Lemma bad_file_goes_to_error_handler_witness :
  let req := post_request (Some ("Bearer " ++ ann_token)%string) [png; txt] in
  let w := start blog 2000 in
  (token_of req = Some ann_token
   /\ jwt_verify quiet ann_token (JWT_SECRET quiet) (now w) = Some ann_claims)
  /\ exists e,
      (e = "Unexpected field" \/ e = "Invalid file type"
       \/ e = "File too large")
      /\ let handed := with_log (log w ++ [EvNext; EvNextErr e]) w in
         POST_posts quiet req w = error_handler quiet e handed
         /\ db handed = db w /\ tx handed = tx w /\ stmts handed = stmts w
         /\ checked_out handed = checked_out w.
Proof.
  intros req w. split; [split; reflexivity|].
  apply (bad_file_goes_to_error_handler quiet req w ann_token ann_claims
           eq_refl ltac:(discriminate) eq_refl).
  right. left. left. repeat split.
Defined.

(** C5, as the spec has it, does not hold: a creation with a file of a
    type that is not allowed is answered 401 when it carries no token (the
    token check comes first), and with a token it is answered by the error
    handling, which is not this router's; Express's own answers 500. The
    same goes for a file over the size limit. *)
Lemma bad_file_not_400 :
  status (serve (POST_posts quiet (post_request None [txt])) (start blog 2000))
  = Some 401
  /\ status (serve (POST_posts quiet
                      (post_request (Some ("Bearer " ++ ann_token)%string) [txt]))
                   (start blog 2000))
     = Some 500
  /\ status (serve (POST_posts quiet
                      (post_request (Some ("Bearer " ++ ann_token)%string) [huge]))
                   (start blog 2000))
     = Some 500.
Proof. repeat split. Qed.

End CreateProofs.

(** ** The sample token library *)

Module SampleFacts.
Import Js Db Rt Http Auth Posts Users Sample.

Lemma dec_enc_pos (p : positive) (rest : string) :
  dec_pos (enc_pos p rest) = Some (p, rest).
Proof.
  induction p as [q IH|q IH|]; cbn; [now rewrite IH ..|reflexivity].
Qed.

Lemma dec_enc_Z (z : Z) (rest : string) :
  dec_Z (enc_Z z rest) = Some (z, rest).
Proof. destruct z; cbn; [reflexivity|now rewrite dec_enc_pos ..]. Qed.

(** A token of the sample library verifies until it expires, and gives
    back what was signed. *)
Lemma verify_sign (payload : Z * string) (secret : string) (ttl n t : Z) :
  verify (sign payload secret ttl n) secret t
  = if t <? n + ttl
    then Some (mkClaims (fst payload) (snd payload) n (n + ttl))
    else None.
Proof. unfold verify, sign. now rewrite !dec_enc_Z. Qed.

End SampleFacts.

(** ** The user routes *)

Module UsersProofs.
Import Js Db Rt Http Auth Posts Users Sample.
Local Open Scope js_scope.
Local Open Scope list_scope.

Lemma login_found (env : Env) (body : Credentials) (w : World) :
  res w = None -> db_fault env (stmts w) = false ->
  login env body w
  = (match filter (fun u => String.eqb (u_email u) (email body))
                  (users (db w)) with
     | [] => respond 404 (msg "User not found")
     | u :: _ =>
         if negb (bcrypt_compare env (password body) (u_password u))
         then respond 401 (msg "Invalid credentials")
         else
           respond 200
             (JObj [("token",
                     JStr (jwt_sign env (u_id u, u_email u) (JWT_SECRET env)
                                    one_day (now w)));
                    ("user", JObj [("id", JNum (u_id u));
                                   ("name", JStr (u_name u))])])
     end)
      (with_log (log w ++ [EvQuery Pool (SelectUserByEmail (email body)) true])
                (with_stmts (S (stmts w)) w)).
Proof.
  intros Hres Hf. unfold login, try_catch, bind.
  rewrite (PostsProofs.query_pool_ok env (SelectUserByEmail (email body)) w
             _ _ _ Hf eq_refl).
  cbn [user_rows]. destruct w as [d t co n u dr nw lg rs]. cbn in Hres.
  subst rs. unfold with_store, with_log, with_stmts.
  cbn [db tx checked_out stmts uploads draws now log res].
  destruct (filter _ (users d)) as [|x rest]; [reflexivity|].
  destruct (bcrypt_compare env (password body) (u_password x));
    reflexivity.
Qed.

Lemma register_stores (env : Env) (body : Credentials) (w : World) :
  db_fault env (stmts w) = false ->
  email_taken (email body) (users (db w)) = false ->
  let u := mkUser (users_seq (db w)) (name body) (email body)
                  (bcrypt_hash env (draws w) (password body) 10) in
  let w1 := serve (register env body) w in
  users (db w1) = users (db w) ++ [u]
  /\ stmts w1 = S (stmts w)
  /\ res w1 = Some (201, JObj [("id", JNum (u_id u));
                               ("name", JStr (name body));
                               ("email", JStr (email body))]).
Proof.
  intros Hf Hfree u w1. subst u w1. unfold serve, register, hash.
  unfold bind at 1. unfold try_catch, bind, query.
  cbn [stmts with_res with_draws db now]. rewrite Hf.
  cbn [exec in_failed_tx andb]. rewrite Hfree.
  cbn [user_rows]. unfold respond. cbn. repeat split.
Qed.

Lemma filter_fresh_email (e : string) (us : list User) :
  email_taken e us = false ->
  filter (fun u => String.eqb (u_email u) e) us = [].
Proof.
  unfold email_taken. induction us as [|u us IH]; cbn; [reflexivity|].
  destruct (String.eqb (u_email u) e); [discriminate|exact IH].
Qed.

(** C8. A login goes three ways when the store answers: 404 when no
    user has the email; 401 when the password does not match the hash
    stored for the user; otherwise 200 with a token and the id and name of
    the user, the token being signed with the secret of the process for
    the payload (id, email) of the stored user and a life time of 24
    hours. With a token library that verifies what it signed until it
    expires, and a password library that accepts the password it hashed,
    registering under a free email and then logging in with the same
    credentials gives a token that verifies during 24 hours and decodes to
    the id and email of the stored user. *)
Theorem login_outcomes (env : Env) (body : Credentials) (w : World) :
  db_fault env (stmts w) = false ->
  let found := filter (fun u => String.eqb (u_email u) (email body))
                      (users (db w)) in
  let w' := serve (login env body) w in
  ((forall u, In u (users (db w)) -> u_email u <> email body) ->
   res w' = Some (404, msg "User not found"))
  /\ (forall u rest,
         found = u :: rest ->
         bcrypt_compare env (password body) (u_password u) = false ->
         res w' = Some (401, msg "Invalid credentials"))
  /\ (forall u rest,
         found = u :: rest ->
         bcrypt_compare env (password body) (u_password u) = true ->
         res w'
         = Some (200,
                 JObj [("token",
                        JStr (jwt_sign env (u_id u, u_email u)
                                       (JWT_SECRET env) (24 * 60 * 60)
                                       (now w)));
                       ("user", JObj [("id", JNum (u_id u));
                                      ("name", JStr (u_name u))])]))
  /\ ((forall payload ttl n t,
          n <= t < n + ttl ->
          exists cl,
            jwt_verify env (jwt_sign env payload (JWT_SECRET env) ttl n)
                       (JWT_SECRET env) t = Some cl
            /\ c_id cl = fst payload /\ c_email cl = snd payload) ->
      (forall d pw, bcrypt_compare env pw (bcrypt_hash env d pw 10) = true) ->
      email_taken (email body) (users (db w)) = false ->
      db_fault env (S (stmts w)) = false ->
      forall t1,
        let w1 := serve (register env body) w in
        let w2 := serve (login env body) (with_now t1 w1) in
        exists token stored,
          In stored (users (db w1))
          /\ u_email stored = email body
          /\ res w2
             = Some (200,
                     JObj [("token", JStr token);
                           ("user", JObj [("id", JNum (u_id stored));
                                          ("name", JStr (name body))])])
          /\ forall t, t1 <= t < t1 + 24 * 60 * 60 ->
                       exists cl,
                         jwt_verify env token (JWT_SECRET env) t = Some cl
                         /\ c_id cl = u_id stored
                         /\ c_email cl = u_email stored).
Proof.
  intros Hf found w'.
  assert (login env body (with_res None w)
          = _ (with_log _ (with_stmts _ (with_res None w)))) as E
      by exact (login_found env body (with_res None w) eq_refl Hf).
  cbn [db with_res now log stmts] in E. fold found in E.
  split; [|split; [|split]].
  - intros Hnone. subst w'. unfold serve. rewrite E.
    assert (found = []) as ->; [|reflexivity].
    apply DbFacts.filter_none. intros u Hu. apply String.eqb_neq. auto.
  - intros u rest Hfound Hbad. subst w'. unfold serve. rewrite E, Hfound, Hbad.
    reflexivity.
  - intros u rest Hfound Hgood. subst w'. unfold serve.
    rewrite E, Hfound, Hgood. reflexivity.
  - intros Hjwt Hbcrypt Hfree Hf1 t1 w1 w2.
    destruct (register_stores env body w Hf Hfree) as (Hus & Hst & _).
    fold w1 in Hus, Hst.
    set (stored := mkUser (users_seq (db w)) (name body) (email body)
                          (bcrypt_hash env (draws w) (password body) 10))
      in Hus.
    exists (jwt_sign env (u_id stored, u_email stored) (JWT_SECRET env)
                     one_day t1), stored.
    split; [rewrite Hus; apply in_or_app; right; now left|].
    split; [reflexivity|]. split.
    + subst w2. unfold serve.
      rewrite (login_found env body (with_res None (with_now t1 w1)) eq_refl).
      2:{ cbn [stmts with_res with_now]. now rewrite Hst. }
      cbn [db with_res with_now now]. rewrite Hus, filter_app.
      rewrite (filter_fresh_email _ _ Hfree). cbn [filter app u_email stored].
      rewrite String.eqb_refl. cbn [u_password stored].
      rewrite Hbcrypt. reflexivity.
    + intros t Ht. exact (Hjwt (u_id stored, u_email stored) one_day t1 t Ht).
Qed.


Lemma login_outcomes_witness :
  let w := start blog 2000 in
  let w0 := start empty_db 1000 in
  let w1 := serve (register quiet ann) w0 in
  let w2 := serve (login quiet ann) (with_now 5000 w1) in
  (db_fault quiet (stmts w) = false /\ db_fault quiet (stmts w0) = false
   /\ email_taken (email ann) (users (db w0)) = false)
  /\ res (serve (login quiet (mkCredentials "" "eve@x.org" "pw")) w)
     = Some (404, msg "User not found")
  /\ res (serve (login quiet (mkCredentials "" "ann@x.org" "bad")) w)
     = Some (401, msg "Invalid credentials")
  /\ status (serve (login quiet ann) w) = Some 200
  /\ exists token stored,
      In stored (users (db w1))
      /\ u_email stored = email ann
      /\ res w2
         = Some (200,
                 JObj [("token", JStr token);
                       ("user", JObj [("id", JNum (u_id stored));
                                      ("name", JStr (name ann))])])
      /\ forall t, 5000 <= t < 5000 + 24 * 60 * 60 ->
                   exists cl,
                     jwt_verify quiet token (JWT_SECRET quiet) t = Some cl
                     /\ c_id cl = u_id stored
                     /\ c_email cl = u_email stored.
Proof.
  intros w w0 w1 w2. split; [repeat split|].
  split.
  { apply (proj1 (login_outcomes quiet (mkCredentials "" "eve@x.org" "pw") w
                    eq_refl)).
    intros u [<-|[<-|[]]]; discriminate. }
  split.
  { exact (proj1 (proj2 (login_outcomes quiet
                           (mkCredentials "" "ann@x.org" "bad") w eq_refl))
             ann_user [] eq_refl eq_refl). }
  split.
  { unfold status.
    now rewrite (proj1 (proj2 (proj2 (login_outcomes quiet ann w eq_refl)))
                   ann_user [] eq_refl eq_refl). }
  apply (proj2 (proj2 (proj2 (login_outcomes quiet ann w0 eq_refl))));
    try reflexivity.
  - intros payload ttl n t Ht. cbn [jwt_verify jwt_sign quiet JWT_SECRET].
    rewrite SampleFacts.verify_sign.
    assert ((t <? n + ttl) = true) as -> by (apply Z.ltb_lt; lia).
    eexists. repeat split.
  - intros d pw. apply String.eqb_refl.
Defined.

End UsersProofs.

(** ** The read routes *)

Module ReadProofs.
Import Js Db Rt Http Auth Posts Users Runs Sample.
Local Open Scope js_scope.
Local Open Scope list_scope.

Lemma insert_desc_perm (v : PostView) (l : list PostView) :
  Permutation (insert_desc v l) (v :: l).
Proof.
  induction l as [|x l IH]; cbn; [reflexivity|].
  destruct (p_created_at (v_post x) <=? p_created_at (v_post v));
    [reflexivity|].
  rewrite IH. apply perm_swap.
Qed.

Lemma order_desc_perm (l : list PostView) : Permutation (order_desc l) l.
Proof.
  induction l as [|v l IH]; cbn; [reflexivity|].
  rewrite insert_desc_perm. now constructor.
Qed.

Lemma insert_desc_hd (v a : PostView) (l : list PostView) :
  newer_first a v -> HdRel newer_first a l ->
  HdRel newer_first a (insert_desc v l).
Proof.
  intros Hav Hal. destruct l as [|x l]; cbn; [now constructor|].
  destruct (p_created_at (v_post x) <=? p_created_at (v_post v));
    constructor; [exact Hav|]. now inversion Hal.
Qed.

Lemma insert_desc_sorted (v : PostView) (l : list PostView) :
  Sorted newer_first l -> Sorted newer_first (insert_desc v l).
Proof.
  induction l as [|x l IH]; intros Hs; cbn; [repeat constructor|].
  destruct (Z.leb_spec (p_created_at (v_post x)) (p_created_at (v_post v)))
    as [Hle|Hlt].
  - constructor; [exact Hs|]. constructor. exact Hle.
  - inversion Hs as [|? ? Hl Hh]; subst. constructor; [now apply IH|].
    apply insert_desc_hd; [unfold newer_first; lia|exact Hh].
Qed.

Lemma order_desc_sorted (l : list PostView) : Sorted newer_first (order_desc l).
Proof.
  induction l as [|v l IH]; cbn; [constructor|now apply insert_desc_sorted].
Qed.

(** The rows of the join: one per post kept and author of it. *)
Lemma in_joined (keep : Post -> bool) (d : Database) (v : PostView) :
  In v (joined keep d)
  <-> exists p u, In p (posts d) /\ keep p = true
                  /\ In u (users d) /\ u_id u = p_user_id p
                  /\ v = view_of d p u.
Proof.
  unfold joined, view_of. rewrite in_flat_map. split.
  - intros (p & Hp & Hv). apply filter_In in Hp as [Hp Hk].
    apply in_map_iff in Hv as (u & <- & Hu).
    apply filter_In in Hu as [Hu Hid]. apply Z.eqb_eq in Hid.
    exists p, u. auto.
  - intros (p & u & Hp & Hk & Hu & Hid & ->). exists p.
    split; [now apply filter_In|]. apply in_map_iff. exists u.
    split; [reflexivity|]. apply filter_In. split; [exact Hu|].
    now apply Z.eqb_eq.
Qed.

Lemma pool_query_run (env : Env) (s : Stmt) (w : World) (rows : Rows)
      {A} (k : Rows -> M A) (h : string -> M A) :
  db_fault env (stmts w) = false ->
  exec (now w) s (db w) None = (Some rows, db w, None) ->
  try_catch (bind (query env Pool s) k) h w
  = try_catch (k rows) h
      (with_log (log w ++ [EvQuery Pool s true]) (with_stmts (S (stmts w)) w)).
Proof.
  intros Hf He. unfold try_catch, bind.
  rewrite (PostsProofs.query_pool_ok env s w _ _ _ Hf He).
  destruct w; reflexivity.
Qed.

Lemma pool_query_fault (env : Env) (s : Stmt) (w : World)
      {A} (k : Rows -> M A) (h : string -> M A) :
  db_fault env (stmts w) = true ->
  try_catch (bind (query env Pool s) k) h w
  = h "database error"
      (with_log (log w ++ [EvQuery Pool s false]) (with_stmts (S (stmts w)) w)).
Proof.
  intros Hf. unfold try_catch, bind.
  rewrite (PostsProofs.query_fault env Pool s w Hf).
  destruct w; reflexivity.
Qed.


Lemma head_of_constant {A} (l : list A) (v : A) :
  In v l -> (forall x, In x l -> x = v) -> exists rest, l = v :: rest.
Proof.
  destruct l as [|a l]; intros Hin Hall; [destruct Hin|].
  exists l. f_equal. apply Hall. now left.
Qed.

(** X1. [GET /:id] reads one post and changes nothing. When the store
    fails the answer is 500. Otherwise the answer is 404 when no post with
    that id has its author among the users (there is no such post, or its
    author's row is missing), and 200 with the post, the name of its
    author and its attachments when the post and the author exist. *)
Theorem getPost_outcomes (env : Env) (id : Z) (w : World) :
  res w = None ->
  let w' := snd (getPost env id w) in
  (db w' = db w /\ tx w' = tx w /\ checked_out w' = checked_out w)
  /\ (db_fault env (stmts w) = true ->
      res w' = Some (500, JObj [("msg", JStr "Failed to fetch post");
                                ("error", JStr "database error")]))
  /\ (db_fault env (stmts w) = false ->
      ((forall p u, In p (posts (db w)) -> p_id p = id ->
                    In u (users (db w)) -> u_id u <> p_user_id p) ->
       res w' = Some (404, msg "Post not found"))
      /\ (forall p u,
             In p (posts (db w)) -> p_id p = id ->
             In u (users (db w)) -> u_id u = p_user_id p ->
             (forall q, In q (posts (db w)) -> p_id q = id -> q = p) ->
             (forall u', In u' (users (db w)) -> u_id u' = p_user_id p ->
                         u' = u) ->
             res w'
             = Some (200,
                     JObj (post_json p
                           ++ [("author_name", JStr (u_name u));
                               ("attachments",
                                JArr (map attachment_json
                                          (filter (fun a =>
                                                     a_post_id a =? p_id p)
                                                  (attachments (db w)))))])))).
Proof.
  intros Hres w'. subst w'. unfold getPost.
  destruct (db_fault env (stmts w)) eqn:Hf.
  - rewrite (pool_query_fault env _ w _ _ Hf).
    set (w1 := with_log _ _).
    assert (res w1 = None) as Hres1 by exact Hres.
    rewrite (AuthProofs.respond_fresh _ _ _ Hres1).
    split; [repeat split|]. split; [reflexivity|discriminate].
  - rewrite (pool_query_run env (SelectPostById id) w _ _ _ Hf eq_refl).
    cbn [view_rows]. unfold try_catch.
    set (w1 := with_log _ _).
    assert (res w1 = None) as Hres1 by exact Hres.
    destruct (joined (fun p => p_id p =? id) (db w)) as [|row0 rest] eqn:Ej.
    + rewrite (AuthProofs.respond_fresh _ _ _ Hres1).
      split; [repeat split|]. split; [discriminate|]. intros _. split.
      * reflexivity.
      * intros p u Hp Hid Hu Huid _ _. exfalso.
        assert (In (view_of (db w) p u) (joined (fun p => p_id p =? id) (db w)))
          as Hin.
        { apply in_joined. exists p, u. repeat split; auto.
          now apply Z.eqb_eq. }
        rewrite Ej in Hin. destruct Hin.
    + rewrite (AuthProofs.respond_fresh _ _ _ Hres1).
      split; [repeat split|]. split; [discriminate|]. intros _. split.
      * intros Hnone. exfalso.
        assert (In row0 (joined (fun p => p_id p =? id) (db w))) as Hin
            by (rewrite Ej; now left).
        apply in_joined in Hin as (p & u & Hp & Hk & Hu & Hid & _).
        apply Z.eqb_eq in Hk. exact (Hnone p u Hp Hk Hu Hid).
      * intros p u Hp Hid Hu Huid Hp1 Hu1.
        destruct (head_of_constant (joined (fun p => p_id p =? id) (db w))
                                   (view_of (db w) p u)) as (r & Er).
        { apply in_joined. exists p, u. repeat split; auto.
          now apply Z.eqb_eq. }
        { intros x Hx. apply in_joined in Hx
            as (q & u' & Hq & Hk & Hu' & Hid' & ->).
          apply Z.eqb_eq in Hk. rewrite (Hp1 q Hq Hk) in *.
          now rewrite (Hu1 u' Hu' Hid'). }
        rewrite Ej in Er. injection Er as -> _. reflexivity.
Qed.

Lemma getPost_outcomes_witness :
  let w := start blog 2000 in
  res w = None /\ db_fault quiet (stmts w) = false
  /\ res (snd (getPost quiet 7 w)) = Some (404, msg "Post not found")
  /\ res (snd (getPost quiet 1 w))
     = Some (200,
             JObj (post_json ann_post
                   ++ [("author_name", JStr "Ann");
                       ("attachments", JArr [attachment_json ann_picture])]))
  /\ db (snd (getPost quiet 1 w)) = blog.
Proof.
  intros w. split; [reflexivity|]. split; [reflexivity|].
  destruct (getPost_outcomes quiet 7 w eq_refl) as (_ & _ & H7).
  destruct (getPost_outcomes quiet 1 w eq_refl) as ((Hdb & _) & _ & H1).
  split.
  { apply (proj1 (H7 eq_refl)).
    intros p u [<-|[<-|[]]]; discriminate. }
  split; [|exact Hdb].
  apply (proj2 (H1 eq_refl) ann_post ann_user); try reflexivity;
    try (left; reflexivity).
  - intros q [<-|[<-|[]]]; [reflexivity|discriminate].
  - intros u' [<-|[<-|[]]]; [reflexivity|discriminate].
Defined.

(** X2. [GET /] lists every post that has its author among the users,
    with the author's name and the post's attachments, newest first, and
    changes nothing; when the store fails the answer is 500. *)
Theorem getPosts_newest_first (env : Env) (w : World) :
  res w = None ->
  let w' := snd (getPosts env w) in
  (db w' = db w /\ tx w' = tx w /\ checked_out w' = checked_out w)
  /\ (db_fault env (stmts w) = true ->
      res w' = Some (500, JObj [("msg", JStr "Failed to fetch posts");
                                ("error", JStr "database error")]))
  /\ (db_fault env (stmts w) = false ->
      exists rows,
        res w' = Some (200,
                       JArr (map (fun v => JObj (view_json attachment_json v))
                                 rows))
        /\ Sorted newer_first rows
        /\ (forall p u, In p (posts (db w)) -> In u (users (db w)) ->
                        u_id u = p_user_id p -> In (view_of (db w) p u) rows)
        /\ (forall v, In v rows ->
                      exists p u, In p (posts (db w)) /\ In u (users (db w))
                                  /\ u_id u = p_user_id p
                                  /\ v = view_of (db w) p u)
        /\ List.length rows
           = List.length (joined (fun _ => true) (db w))).
Proof.
  intros Hres w'. subst w'. unfold getPosts.
  destruct (db_fault env (stmts w)) eqn:Hf.
  - rewrite (pool_query_fault env _ w _ _ Hf).
    set (w1 := with_log _ _).
    assert (res w1 = None) as Hres1 by exact Hres.
    rewrite (AuthProofs.respond_fresh _ _ _ Hres1).
    split; [repeat split|]. split; [reflexivity|discriminate].
  - rewrite (pool_query_run env SelectPosts w _ _ _ Hf eq_refl).
    cbn [view_rows]. unfold try_catch.
    set (w1 := with_log _ _).
    assert (res w1 = None) as Hres1 by exact Hres.
    rewrite (AuthProofs.respond_fresh _ _ _ Hres1).
    split; [repeat split|]. split; [discriminate|]. intros _.
    exists (order_desc (joined (fun _ => true) (db w))).
    split; [reflexivity|]. split; [apply order_desc_sorted|].
    pose proof (order_desc_perm (joined (fun _ => true) (db w))) as Hperm.
    split; [|split].
    + intros p u Hp Hu Hid. apply (Permutation_in _ (Permutation_sym Hperm)).
      apply in_joined. exists p, u. auto.
    + intros v Hv. apply (Permutation_in _ Hperm) in Hv.
      apply in_joined in Hv as (p & u & Hp & _ & Hu & Hid & ->). eauto 6.
    + exact (Permutation_length Hperm).
Qed.

Lemma getPosts_newest_first_witness :
  let w := start blog 2000 in
  res w = None /\ db_fault quiet (stmts w) = false
  /\ exists rows,
      res (snd (getPosts quiet w))
      = Some (200,
              JArr (map (fun v => JObj (view_json attachment_json v)) rows))
      /\ Sorted newer_first rows
      /\ In (view_of blog ann_post ann_user) rows
      /\ In (view_of blog bob_post bob_user) rows
      /\ List.length rows = 2%nat.
Proof.
  intros w. split; [reflexivity|]. split; [reflexivity|].
  destruct (getPosts_newest_first quiet w eq_refl) as (_ & _ & H).
  destruct (H eq_refl) as (rows & Hr & Hs & Hall & _ & Hlen).
  exists rows. split; [exact Hr|]. split; [exact Hs|].
  split; [|split; [|exact Hlen]].
  - apply Hall; [left; reflexivity|left; reflexivity|reflexivity].
  - apply Hall; [right; left; reflexivity|right; left; reflexivity
                |reflexivity].
Defined.

(** X3. [GET /user/:userId] lists the posts of that user and no others:
    every row is a post of the user, every post of the user that has its
    author's row is listed, newest first, each attachment shown by its id,
    url and type; nothing is changed, and when the store fails the answer
    is 500. *)
Theorem getUserPosts_only_theirs (env : Env) (userId : Z) (w : World) :
  res w = None ->
  let w' := snd (getUserPosts env userId w) in
  (db w' = db w /\ tx w' = tx w /\ checked_out w' = checked_out w)
  /\ (db_fault env (stmts w) = true ->
      res w' = Some (500, JObj [("msg", JStr "Failed to fetch user posts");
                                ("error", JStr "database error")]))
  /\ (db_fault env (stmts w) = false ->
      exists rows,
        res w'
        = Some (200,
                JArr (map (fun v =>
                             JObj (post_json (v_post v)
                                   ++ [("author_name",
                                        JStr (v_author_name v));
                                       ("attachments",
                                        JArr (map (fun a =>
                                                     JObj [("id", JNum (a_id a));
                                                           ("url", JStr (a_url a));
                                                           ("type",
                                                            JStr (a_type a))])
                                                  (v_attachments v)))]))
                          rows))
        /\ Sorted newer_first rows
        /\ Forall (fun v => p_user_id (v_post v) = userId) rows
        /\ (forall p u, In p (posts (db w)) -> p_user_id p = userId ->
                        In u (users (db w)) -> u_id u = userId ->
                        In (view_of (db w) p u) rows)).
Proof.
  intros Hres w'. subst w'. unfold getUserPosts.
  destruct (db_fault env (stmts w)) eqn:Hf.
  - rewrite (pool_query_fault env _ w _ _ Hf).
    set (w1 := with_log _ _).
    assert (res w1 = None) as Hres1 by exact Hres.
    rewrite (AuthProofs.respond_fresh _ _ _ Hres1).
    split; [repeat split|]. split; [reflexivity|discriminate].
  - rewrite (pool_query_run env (SelectPostsByUser userId) w _ _ _ Hf eq_refl).
    cbn [view_rows]. unfold try_catch.
    set (w1 := with_log _ _).
    assert (res w1 = None) as Hres1 by exact Hres.
    rewrite (AuthProofs.respond_fresh _ _ _ Hres1).
    split; [repeat split|]. split; [discriminate|]. intros _.
    exists (order_desc (joined (fun p => p_user_id p =? userId) (db w))).
    split; [reflexivity|]. split; [apply order_desc_sorted|].
    pose proof (order_desc_perm
                  (joined (fun p => p_user_id p =? userId) (db w))) as Hperm.
    split.
    + apply Forall_forall. intros v Hv. apply (Permutation_in _ Hperm) in Hv.
      apply in_joined in Hv as (p & u & _ & Hk & _ & _ & ->).
      now apply Z.eqb_eq in Hk.
    + intros p u Hp Hown Hu Hid.
      apply (Permutation_in _ (Permutation_sym Hperm)).
      apply in_joined. exists p, u. repeat split; auto.
      * now apply Z.eqb_eq.
      * congruence.
Qed.

Lemma getUserPosts_only_theirs_witness :
  let w := start blog 2000 in
  res w = None /\ db_fault quiet (stmts w) = false
  /\ exists rows,
      res (snd (getUserPosts quiet 2 w))
      = Some (200,
              JArr (map (fun v => JObj (view_json attachment_object v)) rows))
      /\ Forall (fun v => p_user_id (v_post v) = 2) rows
      /\ In (view_of blog bob_post bob_user) rows.
Proof.
  intros w. split; [reflexivity|]. split; [reflexivity|].
  destruct (getUserPosts_only_theirs quiet 2 w eq_refl) as (_ & _ & H).
  destruct (H eq_refl) as (rows & Hr & _ & Hown & Hall).
  exists rows. split; [exact Hr|]. split; [exact Hown|].
  apply Hall; [right; left; reflexivity|reflexivity
              |right; left; reflexivity|reflexivity].
Defined.

End ReadProofs.

(** ** Creation and what follows it *)

Module LifecycleProofs.
Import Js Db Rt Http Auth Posts Users Runs Sample.
Import CreateProofs.
Local Open Scope js_scope.
Local Open Scope list_scope.

Lemma getPost_run (env : Env) (id : Z) (w : World) :
  res w = None -> db_fault env (stmts w) = false ->
  res (snd (getPost env id w))
  = match joined (fun p => p_id p =? id) (db w) with
    | [] => Some (404, msg "Post not found")
    | row0 :: _ => Some (200, JObj (view_json attachment_json row0))
    end.
Proof.
  intros Hres Hf. unfold getPost.
  rewrite (ReadProofs.pool_query_run env (SelectPostById id) w _ _ _ Hf
             eq_refl).
  cbn [view_rows]. unfold try_catch. set (w1 := with_log _ _).
  assert (res w1 = None) as Hres1 by exact Hres.
  destruct (joined _ (db w));
    now rewrite (AuthProofs.respond_fresh _ _ _ Hres1).
Qed.

Lemma joined_no_post (keep : Post -> bool) (d : Database) :
  (forall p, In p (posts d) -> keep p = false) -> joined keep d = [].
Proof.
  intros H. unfold joined. now rewrite (DbFacts.filter_none _ _ H).
Qed.

Lemma descriptors_of_rows (id postId : Z) (ds : list Descriptor) :
  map descriptor_json ds
  = map (fun a => JObj [("url", JStr (a_url a)); ("type", JStr (a_type a))])
        (rows_of id postId ds).
Proof.
  revert id. induction ds as [|d ds IH]; intros id; [reflexivity|].
  cbn [map rows_of]. rewrite (IH (id + 1)). reflexivity.
Qed.

Lemma rows_of_same_post (id postId : Z) (ds : list Descriptor) :
  filter (fun a => a_post_id a =? postId) (rows_of id postId ds)
  = rows_of id postId ds.
Proof.
  apply DbFacts.filter_all. intros a Ha. apply Z.eqb_eq.
  assert (In (a_post_id a) (map a_post_id (rows_of id postId ds))) as H
      by now apply in_map.
  rewrite RunFacts.rows_of_post_id in H.
  apply in_map_iff in H as (_ & H & _). now symmetry.
Qed.

Ltac not_in_log :=
  let H := fresh "H" in
  intros H; rewrite <- ?app_assoc in H; cbn [app In] in H;
  rewrite ?in_app_iff in H; cbn [In] in H;
  decompose [or] H; try discriminate; try contradiction;
  try (eapply no_query_in_uploads; eassumption).
Ltac open_run :=
  eexists; split; [reflexivity|]; tables; split; [reflexivity|];
  split; [reflexivity|];
  eexists; split; [rewrite <- ?app_assoc; cbn [app]; reflexivity|].
Ltac was_rolled_back H :=
  open_run; right; left;
  split; [fails H|]; split; [reflexivity|]; split; [reflexivity|];
  split; [cbn [In]; rewrite ?in_app_iff; cbn [In]; intuition|];
  split; [not_in_log|];
  split; [reflexivity|]; eexists; reflexivity.
Ltac rollback_lost H :=
  open_run; right; right;
  split; [fails H|]; split; [reflexivity|]; split; [reflexivity|];
  split; [cbn [In]; rewrite ?in_app_iff; cbn [In]; intuition|reflexivity].
Ltac lost H F := rollback F; [rollback_lost H|was_rolled_back H].

(** Every run of the handler once the client is checked out, with what it
    leaves: the post committed and answered; or nothing written, the
    ROLLBACK gone through and 500 answered; or nothing written, the
    ROLLBACK refused and nothing answered. *)
Lemma createPost_classified (env : Env) (req : Request) (w : World)
      (c : Claims) :
  res w = None -> tx w = None -> user req = Some c ->
  falsy (title req) = false -> falsy (description req) = false ->
  falsy (content req) = false ->
  db_fault env (stmts w) = false ->
  let p := mkPost (posts_seq (db w)) (c_id c) (title req) (description req)
                  (content req) (now w) in
  exists w',
    snd (createPost env req w) = w'
    /\ users (db w') = users (db w)
    /\ checked_out w' = false
    /\ exists evs,
        log w' = log w ++ evs
        /\ ((existsb failed evs = false
             /\ exists ds,
                 res w' = Some (201,
                                JObj (post_json p
                                      ++ [("attachments",
                                           JArr (map descriptor_json ds))]))
                 /\ tx w' = None
                 /\ posts (db w') = posts (db w) ++ [p]
                 /\ attachments (db w')
                    = attachments (db w)
                      ++ rows_of (attachments_seq (db w)) (p_id p) ds)
            \/ (existsb failed evs = true
                /\ posts (db w') = posts (db w)
                /\ attachments (db w') = attachments (db w)
                /\ In (EvQuery Client ROLLBACK true) evs
                /\ ~ In (EvQuery Client ROLLBACK false) evs
                /\ tx w' = None
                /\ exists e,
                    res w' = Some (500,
                                   JObj [("msg", JStr "Post creation failed");
                                         ("error", JStr e);
                                         ("stack", JStr (stack e))]))
            \/ (existsb failed evs = true
                /\ posts (db w') = posts (db w)
                /\ attachments (db w') = attachments (db w)
                /\ In (EvQuery Client ROLLBACK false) evs
                /\ res w' = None)).
Proof.
  intros Hres Htx Hu Ht Hd Hc Hconn p. subst p.
  rewrite (createPost_validated env req c Hu Ht Hd Hc).
  destruct w as [d t co n u dr nw lg rs]. cbn in Hres, Htx, Hconn. subst t rs.
  cbn [db tx checked_out stmts uploads now log res].
  unfold bind at 1. unfold connect. cbn [stmts log]. rewrite Hconn. world.
  unfold try_finally, try_catch.
  query_step F1; [lost F1 F2|].
  query_step F2; [lost F2 F3|].
  unfold bind at 1. unfold first_post at 1. reduce. unfold ret at 1.
  unfold bind at 1.
  destruct (files req) as [|f rest] eqn:Ef.
  - unfold ret at 1. reduce.
    query_step F3; [lost F3 F4|].
    unfold respond. cbn [res]. reduce. unfold release. world. reduce.
    open_run. left. split; [reflexivity|]. exists []. repeat split.
  - cbv beta iota. remember (f :: rest) as fs eqn:Efs.
    unfold bind at 1. rewrite RunFacts.upload_each_run. world.
    pose proof (loop_result_failed env fs u) as Hl.
    destruct (loop_result env u fs) as [ds|] eqn:El; reduce.
    + assert (ds <> []) as Hds.
      { apply RunFacts.loop_result_length in El. subst fs.
        destruct ds; [discriminate|congruence]. }
      unfold bind at 1. rewrite query_client_run.
      on_fault F3; [reduce; lost F3 F4|].
      rewrite RunFacts.exec_insert_attachments by (exact Hds || reflexivity).
      reduce. unfold ret at 1. reduce.
      query_step F4; [lost F4 F5|].
      unfold respond. cbn [res]. reduce. unfold release. world. reduce.
      open_run. left. split; [fails Hl|]. exists ds. repeat split.
    + lost Hl F3.
Qed.

(** X4. A post that was created can be fetched: after a creation that
    answered 201, [GET /:id] with the id of the new post answers 200 with
    the same post, the name of its author, and as attachments the rows of
    the descriptors the creation answered, in the same order. *)
Theorem created_post_can_be_fetched (env : Env) (req : Request) (w : World)
        (c : Claims) (author : User) :
  res w = None -> tx w = None -> user req = Some c ->
  falsy (title req) = false -> falsy (description req) = false ->
  falsy (content req) = false ->
  db_fault env (stmts w) = false ->
  let w1 := snd (createPost env req w) in
  status w1 = Some 201 ->
  db_fault env (stmts w1) = false ->
  (forall q, In q (posts (db w)) -> p_id q <> posts_seq (db w)) ->
  (forall a, In a (attachments (db w)) -> a_post_id a <> posts_seq (db w)) ->
  In author (users (db w)) -> u_id author = c_id c ->
  (forall u, In u (users (db w)) -> u_id u = c_id c -> u = author) ->
  let p := mkPost (posts_seq (db w)) (c_id c) (title req) (description req)
                  (content req) (now w) in
  exists rows,
    res w1
    = Some (201,
            JObj (post_json p
                  ++ [("attachments",
                       JArr (map (fun a => JObj [("url", JStr (a_url a));
                                                 ("type", JStr (a_type a))])
                                 rows))]))
    /\ res (serve (getPost env (p_id p)) w1)
       = Some (200,
               JObj (post_json p
                     ++ [("author_name", JStr (u_name author));
                         ("attachments", JArr (map attachment_json rows))])).
Proof.
  intros Hres Htx Hu Ht Hd Hc Hconn w1 H201 Hf1 Hfresh Hafresh Hau Haid Hauniq
         p.
  destruct (createPost_classified env req w c Hres Htx Hu Ht Hd Hc Hconn)
    as (w' & E & Hus & _ & evs & _ & H).
  fold w1 in E. subst w'. unfold status in H201.
  destruct H as [(_ & ds & Hr & _ & Hp & Ha)
                |[(_ & _ & _ & _ & _ & _ & e & Hr)|(_ & _ & _ & _ & Hr)]];
    [|rewrite Hr in H201; discriminate ..].
  fold p in Hr, Hp, Ha.
  exists (rows_of (attachments_seq (db w)) (p_id p) ds). split.
  { rewrite Hr. now rewrite (descriptors_of_rows (attachments_seq (db w))
                                                 (p_id p) ds). }
  unfold serve. rewrite (getPost_run env (p_id p) (with_res None w1) eq_refl Hf1).
  cbn [db with_res].
  destruct (ReadProofs.head_of_constant
              (joined (fun q => p_id q =? p_id p) (db w1))
              (view_of (db w1) p author)) as (rest & ->).
  - apply ReadProofs.in_joined. exists p, author.
    rewrite Hp, Hus. repeat split; auto.
    + apply in_or_app. right. now left.
    + apply Z.eqb_refl.
  - intros x Hx. apply ReadProofs.in_joined in Hx
      as (q & u' & Hq & Hk & Hu' & Hid & ->).
    apply Z.eqb_eq in Hk. rewrite Hp in Hq. rewrite Hus in Hu'.
    apply in_app_or in Hq as [Hq|[<-|[]]].
    + exfalso. exact (Hfresh q Hq Hk).
    + now rewrite (Hauniq u' Hu' Hid).
  - unfold view_of, view_json. cbn [v_post v_author_name v_attachments].
    rewrite Ha, filter_app, rows_of_same_post.
    rewrite (DbFacts.filter_none _ (attachments (db w))); [reflexivity|].
    intros a Hin. apply Z.eqb_neq. exact (Hafresh a Hin).
Qed.

Lemma created_post_can_be_fetched_witness :
  let req := handler_request ann_claims 0 (Some "T") (Some "D") (Some "C")
                             [png; pdf] in
  let w := start blog 2000 in
  let w1 := snd (createPost quiet req w) in
  let p := mkPost 3 1 (Some "T") (Some "D") (Some "C") 2000 in
  (res w = None /\ tx w = None /\ user req = Some ann_claims
   /\ status w1 = Some 201 /\ In ann_user (users (db w)))
  /\ exists rows,
      res w1
      = Some (201,
              JObj (post_json p
                    ++ [("attachments",
                         JArr (map (fun a => JObj [("url", JStr (a_url a));
                                                   ("type", JStr (a_type a))])
                                   rows))]))
      /\ res (serve (getPost quiet 3) w1)
         = Some (200,
                 JObj (post_json p
                       ++ [("author_name", JStr "Ann");
                           ("attachments", JArr (map attachment_json rows))])).
Proof.
  intros req w w1 p. split; [repeat split; left; reflexivity|].
  apply (created_post_can_be_fetched quiet req w ann_claims ann_user);
    try reflexivity.
  - intros q [<-|[<-|[]]]; discriminate.
  - intros a [<-|[]]; discriminate.
  - left; reflexivity.
  - intros u [<-|[<-|[]]]; [reflexivity|discriminate].
Defined.

(** X5. A post whose creation failed cannot be fetched: after a creation
    that did not answer 201, [GET /:id] with the id the post would have
    had answers 404. *)
Theorem failed_creation_not_fetchable (env : Env) (req : Request) (w : World)
        (c : Claims) :
  res w = None -> tx w = None -> user req = Some c ->
  falsy (title req) = false -> falsy (description req) = false ->
  falsy (content req) = false ->
  db_fault env (stmts w) = false ->
  let w1 := snd (createPost env req w) in
  status w1 <> Some 201 ->
  db_fault env (stmts w1) = false ->
  (forall q, In q (posts (db w)) -> p_id q <> posts_seq (db w)) ->
  posts (db w1) = posts (db w)
  /\ res (serve (getPost env (posts_seq (db w))) w1)
     = Some (404, msg "Post not found").
Proof.
  intros Hres Htx Hu Ht Hd Hc Hconn w1 Hno Hf1 Hfresh.
  destruct (createPost_classified env req w c Hres Htx Hu Ht Hd Hc Hconn)
    as (w' & E & _ & _ & evs & _ & H).
  fold w1 in E. subst w'.
  assert (posts (db w1) = posts (db w)) as Hp.
  { destruct H as [(_ & ds & Hr & _)|[(_ & Hp & _)|(_ & Hp & _)]];
      [|exact Hp ..].
    exfalso. apply Hno. unfold status. now rewrite Hr. }
  split; [exact Hp|]. unfold serve.
  rewrite (getPost_run env _ (with_res None w1) eq_refl Hf1).
  cbn [db with_res]. rewrite joined_no_post; [reflexivity|].
  rewrite Hp. intros q Hq. apply Z.eqb_neq. exact (Hfresh q Hq).
Qed.

Lemma failed_creation_not_fetchable_witness :
  let env := failing (fun _ => false) (fun n => Nat.eqb n 1) in
  let req := handler_request ann_claims 0 (Some "T") (Some "D") (Some "C")
                             [png; mp4; pdf] in
  let w := start blog 2000 in
  let w1 := snd (createPost env req w) in
  (res w = None /\ tx w = None /\ user req = Some ann_claims
   /\ status w1 = Some 500)
  /\ posts (db w1) = posts blog
  /\ res (serve (getPost env 3) w1) = Some (404, msg "Post not found").
Proof.
  intros env req w w1. split; [repeat split|].
  apply (failed_creation_not_fetchable env req w ann_claims);
    try reflexivity.
  - discriminate.
  - intros q [<-|[<-|[]]]; discriminate.
Defined.

(** X6. When the ROLLBACK of a failed creation is itself refused, the
    handler answers nothing: the request is left without a response, the
    client is released all the same, and the tables are as they were. *)
Theorem lost_rollback_answers_nothing (env : Env) (req : Request) (w : World)
        (c : Claims) :
  res w = None -> tx w = None -> user req = Some c ->
  falsy (title req) = false -> falsy (description req) = false ->
  falsy (content req) = false ->
  db_fault env (stmts w) = false ->
  let w' := snd (createPost env req w) in
  exists evs,
    log w' = log w ++ evs
    /\ (In (EvQuery Client ROLLBACK false) evs ->
        res w' = None /\ checked_out w' = false
        /\ posts (db w') = posts (db w)
        /\ attachments (db w') = attachments (db w))
    /\ (res w' = None -> In (EvQuery Client ROLLBACK false) evs).
Proof.
  intros Hres Htx Hu Ht Hd Hc Hconn w'.
  destruct (createPost_classified env req w c Hres Htx Hu Ht Hd Hc Hconn)
    as (w1 & E & _ & Hco & evs & Hlog & H).
  subst w'. rewrite E. exists evs. split; [exact Hlog|].
  destruct H as [(Hok & ds & Hr & _)
                |[(_ & _ & _ & _ & Hnot & _ & e & Hr)
                 |(_ & Hp & Ha & Hin & Hr)]].
  - split; [|rewrite Hr; discriminate]. intros Hin. exfalso.
    assert (existsb failed evs = true) as Ht'
        by (apply existsb_exists; eexists; split; [exact Hin|reflexivity]).
    congruence.
  - split; [|rewrite Hr; discriminate]. intros Hin. now destruct Hnot.
  - split; [intros _; auto|intros _; exact Hin].
Qed.

Lemma lost_rollback_answers_nothing_witness :
  let env := failing (fun n => Nat.leb 2 n) (fun _ => false) in
  let req := handler_request ann_claims 0 (Some "T") (Some "D") (Some "C") [] in
  let w := start blog 2000 in
  let w' := snd (createPost env req w) in
  (res w = None /\ tx w = None /\ user req = Some ann_claims
   /\ db_fault env (stmts w) = false)
  /\ In (EvQuery Client ROLLBACK false) (log w')
  /\ res w' = None /\ checked_out w' = false
  /\ posts (db w') = posts blog /\ attachments (db w') = attachments blog.
Proof.
  intros env req w w'. split; [repeat split|].
  destruct (lost_rollback_answers_nothing env req w ann_claims
              eq_refl eq_refl eq_refl eq_refl eq_refl eq_refl eq_refl)
    as (evs & Hlog & H & _).
  change (log w' = evs) in Hlog. subst evs.
  assert (In (EvQuery Client ROLLBACK false) (log w')) as Hin
      by (vm_compute; tauto).
  split; [exact Hin|]. exact (H Hin).
Defined.

End LifecycleProofs.

(** ** The middlewares in front of the handlers *)

Module MiddlewareProofs.
Import Js Db Rt Http Auth Posts Users Runs Sample.
Import CreateProofs.
Local Open Scope js_scope.
Local Open Scope list_scope.

(** X7. A creation that got its client gives it back, whatever happens
    in between: the run ends with [client.release()]. When the pool gives
    no client, the handler throws before its [try]: nothing is answered
    and nothing is released. *)
Theorem createPost_releases_client (env : Env) (req : Request) (w : World)
        (c : Claims) :
  user req = Some c ->
  falsy (title req) = false -> falsy (description req) = false ->
  falsy (content req) = false ->
  (db_fault env (stmts w) = false ->
   exists r w' evs,
     createPost env req w = (r, w')
     /\ checked_out w' = false /\ log w' = evs ++ [EvRelease])
  /\ (db_fault env (stmts w) = true ->
      createPost env req w
      = (Throw "connection failed",
         with_log (log w ++ [EvConnect false]) (with_stmts (S (stmts w)) w))).
Proof.
  intros Hu Ht Hd Hc. rewrite (createPost_validated env req c Hu Ht Hd Hc).
  split; intros Hf; unfold bind at 1; unfold connect; rewrite Hf;
    [|reflexivity].
  unfold try_finally.
  destruct (try_catch _ _ _) as [r w1]. unfold release.
  do 3 eexists. split; [reflexivity|]. split; reflexivity.
Qed.

Lemma createPost_releases_client_witness :
  let req := handler_request ann_claims 0 (Some "T") (Some "D") (Some "C")
                             [png] in
  let down := failing (fun _ => true) (fun _ => false) in
  let w := start blog 2000 in
  (user req = Some ann_claims /\ db_fault quiet (stmts w) = false
   /\ db_fault down (stmts w) = true)
  /\ (exists r w' evs,
         createPost quiet req w = (r, w')
         /\ checked_out w' = false /\ log w' = evs ++ [EvRelease])
  /\ res (snd (createPost down req w)) = None
  /\ log (snd (createPost down req w)) = [EvConnect false].
Proof.
  intros req down w. split; [repeat split|]. split.
  - exact (proj1 (createPost_releases_client quiet req w ann_claims
                    eq_refl eq_refl eq_refl eq_refl) eq_refl).
  - rewrite (proj2 (createPost_releases_client down req w ann_claims
                      eq_refl eq_refl eq_refl eq_refl) eq_refl).
    split; reflexivity.
Defined.





(** X10. The type recorded for a file that passed the filter tells its
    kind: it is "pdf" exactly for application/pdf, "image" exactly for
    image/ and "video" exactly for video/. *)
Theorem recorded_type_sound (f : File) :
  fileFilter f = Ok true ->
  (type_of (mimetype f) = "image"
   <-> startsWith (mimetype f) "image/" = true)
  /\ (type_of (mimetype f) = "video"
      <-> startsWith (mimetype f) "video/" = true)
  /\ (type_of (mimetype f) = "pdf"
      <-> startsWith (mimetype f) "application/pdf" = true).
Proof.
  intros Hf. apply fileFilter_allowed in Hf.
  rewrite (type_of_allowed _ Hf). unfold startsWith in *.
  destruct (String.prefix "image/" (mimetype f)) eqn:Ei.
  - destruct (prefix_head _ _ _ Ei) as (m & ->). cbn.
    repeat split; intros; (reflexivity || discriminate).
  - destruct (String.prefix "video/" (mimetype f)) eqn:Ev.
    + destruct (prefix_head _ _ _ Ev) as (m & ->). cbn.
      repeat split; intros; (reflexivity || discriminate).
    + destruct Hf as [H|[H|H]]; [discriminate ..|]. rewrite H.
      repeat split; intros; (reflexivity || discriminate).
Qed.

Lemma recorded_type_sound_witness :
  fileFilter pdf = Ok true
  /\ (type_of (mimetype pdf) = "pdf"
      <-> startsWith (mimetype pdf) "application/pdf" = true).
Proof.
  split; [reflexivity|].
  exact (proj2 (proj2 (recorded_type_sound pdf eq_refl))).
Defined.

End MiddlewareProofs.

(** ** The routes as the router declares them *)

Module RouteProofs.
Import Js Db Rt Http Auth Posts Users Runs Sample.
Local Open Scope js_scope.
Local Open Scope list_scope.

(** X11. Two edges of the way the token is cut out of the header: with
    two spaces between the scheme and the token the second segment is
    empty and the answer is 401, even for a token that verifies; and what
    follows a second space is ignored, the token before it is the one that
    is verified. *)
Theorem token_segments (env : Env) (req : Request)
        (next : Request -> M unit) (w : World) (scheme token : string) :
  res w = None -> contains_char " " scheme = false ->
  (authorization req = Some (scheme ++ "  " ++ token)%string ->
   verifyToken env req next w
   = (Ok tt, with_res (Some (401, msg "Token missing"))
               (with_log (log w ++ [EvRespond 401 (msg "Token missing")]) w)))
  /\ (forall rest decoded,
         authorization req = Some (scheme ++ " " ++ token ++ " " ++ rest)%string ->
         contains_char " " token = false -> token <> ""%string ->
         jwt_verify env token (JWT_SECRET env) (now w) = Some decoded ->
         verifyToken env req next w
         = next (with_user decoded req) (with_log (log w ++ [EvNext]) w)).
Proof.
  intros Hres Hs. split.
  - intros Ha. apply AuthProofs.verifyToken_missing; [exact Hres|].
    unfold token_of. rewrite Ha.
    change (scheme ++ "  " ++ token)%string
      with (scheme ++ String " " (String " " token))%string.
    rewrite (JsFacts.split_at_first_sep _ _ _ Hs). cbn [split].
    reflexivity.
  - intros rest decoded Ha Ht Hne Hv.
    apply AuthProofs.verifyToken_accepted with token; [|exact Hne|exact Hv].
    unfold token_of. rewrite Ha.
    change (scheme ++ " " ++ token ++ " " ++ rest)%string
      with (scheme ++ String " " (token ++ String " " rest))%string.
    rewrite (JsFacts.split_at_first_sep _ _ _ Hs).
    rewrite (JsFacts.split_at_first_sep _ _ _ Ht). reflexivity.
Qed.

Lemma token_segments_witness :
  let w := start empty_db 2000 in
  let req h := post_request (Some h) [] in
  let next := fun r : Request => respond 204 (JNum (match user r with
                                                    | Some c => c_id c
                                                    | None => 0
                                                    end)) in
  (res w = None /\ contains_char " " "Bearer" = false)
  /\ res (snd (verifyToken quiet (req ("Bearer  " ++ ann_token)%string) next w))
     = Some (401, msg "Token missing")
  /\ res (snd (verifyToken quiet
                 (req ("Bearer " ++ ann_token ++ " " ++ "junk")%string)
                 next w))
     = Some (204, JNum 1).
Proof.
  intros w req next. split; [split; reflexivity|]. split.
  - rewrite (proj1 (token_segments quiet
                      (req ("Bearer  " ++ ann_token)%string) next w
                      "Bearer" ann_token eq_refl eq_refl) eq_refl).
    reflexivity.
  - rewrite (proj2 (token_segments quiet
                      (req ("Bearer " ++ ann_token ++ " " ++ "junk")%string)
                      next w "Bearer" ann_token eq_refl eq_refl)
               "junk"%string ann_claims eq_refl eq_refl
               ltac:(discriminate) eq_refl).
    reflexivity.
Defined.

(** X12. The three routes that write are behind the token check: a
    request without a token is answered 401 by each of them and nothing
    else happens, no part is parsed and the store is not asked anything;
    with a token that does not verify the answer is 403 in the same way. *)
Theorem write_routes_protected (env : Env) (req : Request) (w : World) :
  res w = None ->
  let answered st m :=
    (Ok tt, with_res (Some (st, msg m))
              (with_log (log w ++ [EvRespond st (msg m)]) w)) in
  (falsy (token_of req) = true ->
   POST_posts env req w = answered 401 "Token missing"%string
   /\ PUT_posts_id env req w = answered 401 "Token missing"%string
   /\ DELETE_posts_id env req w = answered 401 "Token missing"%string)
  /\ (forall token,
         token_of req = Some token -> token <> ""%string ->
         jwt_verify env token (JWT_SECRET env) (now w) = None ->
         POST_posts env req w = answered 403 "Invalid token"%string
         /\ PUT_posts_id env req w = answered 403 "Invalid token"%string
         /\ DELETE_posts_id env req w = answered 403 "Invalid token"%string).
Proof.
  intros Hres answered. subst answered. cbv beta.
  unfold POST_posts, PUT_posts_id, DELETE_posts_id. split.
  - intros Hf. repeat split; now apply AuthProofs.verifyToken_missing.
  - intros token Ht Hne Hv.
    repeat split; now apply AuthProofs.verifyToken_rejected with token.
Qed.

Lemma write_routes_protected_witness :
  let w := start blog 2000 in
  let req := mkRequest None 1 (Some "x") (Some "y") (Some "z") [txt] None [] in
  res w = None /\ falsy (token_of req) = true
  /\ db (snd (POST_posts quiet req w)) = blog
  /\ db (snd (PUT_posts_id quiet req w)) = blog
  /\ db (snd (DELETE_posts_id quiet req w)) = blog
  /\ status (snd (DELETE_posts_id quiet req w)) = Some 401.
Proof.
  intros w req. split; [reflexivity|]. split; [reflexivity|].
  destruct (proj1 (write_routes_protected quiet req w eq_refl) eq_refl)
    as (-> & -> & ->).
  repeat split.
Defined.

(** X13. The statement that inserts the attachments is well formed for
    any number of descriptors: it carries the post id and then the url and
    the type of each descriptor, 2N+1 parameters in all, and its N rows
    read them back in that order, every row with the post id. *)
Theorem attachment_insert_well_formed (postId id : Z) (ds : list Descriptor) :
  List.length (values postId ds) = (2 * List.length ds + 1)%nat
  /\ List.length (placeholders ds) = List.length ds
  /\ exists rows,
      attachments_of (values postId ds) id (placeholders ds) = Some rows
      /\ map a_post_id rows = map (fun _ => postId) ds
      /\ map a_url rows = map url ds
      /\ map a_type rows = map type ds
      /\ map a_id rows
         = map (fun i => id + Z.of_nat i) (seq 0 (List.length ds)).
Proof.
  split; [rewrite RunFacts.values_length; lia|].
  split; [apply RunFacts.placeholders_length|].
  exists (rows_of id postId ds).
  split; [apply RunFacts.attachments_of_values|].
  split; [apply RunFacts.rows_of_post_id|].
  split; [apply RunFacts.rows_of_url|].
  split; [apply RunFacts.rows_of_type|apply RunFacts.rows_of_id].
Qed.


(** X14. A delete by the owner: when the store answers and the user owns
    a post with the requested id, the answer is 200, that post is gone and
    every other post is still there; the attachments of the posts that
    stay are untouched. When the store fails the answer is 500 and
    nothing is changed. *)
Theorem deletePost_outcomes (env : Env) (req : Request) (w : World)
        (c : Claims) :
  res w = None -> user req = Some c ->
  let w' := snd (deletePost env req w) in
  let mine q := p_id q = id_param req /\ p_user_id q = c_id c in
  (db_fault env (stmts w) = true ->
   res w' = Some (500, JObj [("msg", JStr "Delete failed");
                             ("error", JStr "database error")])
   /\ db w' = db w)
  /\ (db_fault env (stmts w) = false ->
      forall p, In p (posts (db w)) -> mine p ->
        res w' = Some (200, msg "Post deleted successfully")
        /\ (forall q, In q (posts (db w')) <-> In q (posts (db w)) /\ ~ mine q)
        /\ (forall a, In a (attachments (db w)) ->
                      (forall q, In q (posts (db w)) -> mine q ->
                                 p_id q <> a_post_id a) ->
                      In a (attachments (db w')))
        /\ users (db w') = users (db w)).
Proof.
  intros Hres Hu w' mine.
  assert (forall q, owned (id_param req) (c_id c) q = true <-> mine q) as Hown.
  { intros q. unfold owned, mine. rewrite andb_true_iff, !Z.eqb_eq. tauto. }
  assert (deletePost env req w
          = try_catch
              (result <- query env Pool (DeletePost (id_param req) (c_id c)) ;;
               if (rowCount result =? 0)%nat
               then respond 403 (msg "Unauthorized or not found")
               else respond 200 (msg "Post deleted successfully"))
              (fun err =>
                 respond 500 (JObj [("msg", JStr "Delete failed");
                                    ("error", JStr err)])) w) as E.
  { unfold deletePost, user_id. rewrite Hu. reflexivity. }
  subst w'. rewrite E. clear E. unfold try_catch, bind, query.
  destruct (db_fault env (stmts w)) eqn:Hf.
  - unfold respond. cbn. rewrite Hres. cbn.
    split; [intros _; split; reflexivity|intros [=]].
  - split; [intros [=]|]. intros _ p Hp Hmine.
    cbn [exec in_failed_tx andb]. cbv zeta. cbn [rowCount].
    destruct (filter (owned (id_param req) (c_id c)) (posts (db w)))
      as [|q0 hit] eqn:Eh.
    { exfalso.
      assert (In p (filter (owned (id_param req) (c_id c)) (posts (db w))))
        as Hin by (apply filter_In; split; [exact Hp|now apply Hown]).
      rewrite Eh in Hin. destruct Hin. }
    unfold respond. cbn. rewrite Hres. cbn.
    split; [reflexivity|]. split; [|split; [|reflexivity]].
    + intros q. rewrite filter_In, negb_true_iff. rewrite <- Hown.
      destruct (owned (id_param req) (c_id c) q);
        intuition (try discriminate; auto).
    + intros a Ha Hkeep. apply filter_In. split; [exact Ha|].
      apply negb_true_iff. apply not_true_iff_false. intros Hex.
      apply (existsb_exists (fun p => p_id p =? a_post_id a) (q0 :: hit))
        in Hex as (q & Hq & Heq).
      rewrite <- Eh in Hq. apply filter_In in Hq as [Hq Ho].
      apply Z.eqb_eq in Heq. apply (Hkeep q Hq); [now apply Hown|exact Heq].
Qed.

Lemma deletePost_outcomes_witness :
  let w := start blog 2000 in
  let req := handler_request bob_claims 2 None None None [] in
  let w' := snd (deletePost quiet req w) in
  (res w = None /\ user req = Some bob_claims
   /\ db_fault quiet (stmts w) = false)
  /\ res w' = Some (200, msg "Post deleted successfully")
  /\ In ann_post (posts (db w')) /\ ~ In bob_post (posts (db w'))
  /\ In ann_picture (attachments (db w')).
Proof.
  intros w req w'. split; [repeat split|].
  destruct (proj2 (deletePost_outcomes quiet req w bob_claims eq_refl eq_refl)
              eq_refl bob_post (or_intror (or_introl eq_refl))
              (conj eq_refl eq_refl))
    as (Hr & Hposts & Hatt & _).
  split; [exact Hr|]. split; [|split].
  - apply Hposts. split; [left; reflexivity|]. intros [H _]. discriminate H.
  - intros Hin. apply Hposts in Hin as [_ Hn]. apply Hn. split; reflexivity.
  - apply Hatt; [left; reflexivity|].
    intros q [<-|[<-|[]]] [H1 H2]; discriminate.
Defined.

Lemma updatePost_db (env : Env) (req : Request) (w : World) :
  db (snd (updatePost env req w))
  = match user req with
    | None => db w
    | Some c =>
        if db_fault env (stmts w) then db w
        else set_posts
               (map (fun p => if owned (id_param req) (c_id c) p
                              then set_text (title req) (description req)
                                            (content req) p
                              else p) (posts (db w)))
               (db w)
    end.
Proof.
  unfold updatePost, user_id. destruct (user req) as [c|]; [|reflexivity].
  unfold bind at 1. unfold ret at 1. unfold try_catch, bind, query.
  destruct w as [d t co n u dr nw lg rs]. cbn [stmts db now].
  destruct (db_fault env n).
  - unfold respond. cbn. now destruct rs.
  - cbn [exec in_failed_tx andb]. cbv zeta. cbn [rowCount].
    rewrite length_map.
    destruct (filter (owned (id_param req) (c_id c)) (posts d));
      unfold respond, first_post, ret; cbn; now destruct rs.
Qed.

(** X15. An update rewrites three columns and nothing else: in every
    run, whoever asks and whatever the store does, the posts keep their
    ids, owners and dates in the same order, and users and attachments are
    as before; a post the request does not match is not changed at all. *)
Theorem updatePost_keeps_identity (env : Env) (req : Request) (w : World) :
  let w' := snd (updatePost env req w) in
  map p_id (posts (db w')) = map p_id (posts (db w))
  /\ map p_user_id (posts (db w')) = map p_user_id (posts (db w))
  /\ map p_created_at (posts (db w')) = map p_created_at (posts (db w))
  /\ users (db w') = users (db w)
  /\ attachments (db w') = attachments (db w)
  /\ (forall q, In q (posts (db w)) -> p_id q <> id_param req ->
                In q (posts (db w'))).
Proof.
  intros w'. subst w'. rewrite updatePost_db.
  destruct (user req) as [c|]; [|repeat split; auto].
  destruct (db_fault env (stmts w)); [repeat split; auto|].
  cbn [posts users attachments set_posts]. rewrite !map_map.
  repeat split;
    try (apply map_ext; intros p;
         now destruct (owned (id_param req) (c_id c) p)).
  intros q Hq Hid. apply in_map_iff. exists q. split; [|exact Hq].
  unfold owned. apply Z.eqb_neq in Hid. now rewrite Hid.
Qed.

End RouteProofs.

(** ** Accounts *)

Module AccountProofs.
Import Js Db Rt Http Auth Posts Users Runs Sample.
Local Open Scope js_scope.
Local Open Scope list_scope.

(** X16. A registration the store refuses, because the email is taken
    or for any other reason, is answered 500 "Registration failed" and
    adds no user. *)
Theorem register_refused (env : Env) (body : Credentials) (w : World) :
  db_fault env (stmts w) = true
  \/ email_taken (email body) (users (db w)) = true ->
  let w' := serve (register env body) w in
  res w' = Some (500, JObj [("msg", JStr "Registration failed");
                            ("error", JStr "database error")])
  /\ users (db w') = users (db w)
  /\ posts (db w') = posts (db w).
Proof.
  intros H w'. subst w'. unfold serve, register, hash.
  unfold bind at 1. unfold try_catch, bind, query.
  destruct w as [d t co n u dr nw lg rs].
  cbn [stmts with_res with_draws db now] in *.
  destruct (db_fault env n).
  - unfold respond. cbn. repeat split.
  - destruct H as [H|H]; [discriminate|].
    cbn [exec in_failed_tx andb]. rewrite H. unfold respond. cbn.
    repeat split.
Qed.

Lemma register_refused_witness :
  let w := start blog 2000 in
  let w' := serve (register quiet ann) w in
  email_taken (email ann) (users (db w)) = true
  /\ status w' = Some 500 /\ users (db w') = users blog.
Proof.
  intros w w'. split; [reflexivity|].
  destruct (register_refused quiet ann w (or_intror eq_refl)) as (Hr & Hu & _).
  split; [|exact Hu]. unfold status, w'. now rewrite Hr.
Defined.

(** X17. A registration that goes through stores the hash of the
    password, made with cost 10, and answers 201 with the id, the name and
    the email of the new user and nothing else: the password is not in
    the answer, hashed or not. *)
Theorem register_hides_password (env : Env) (body : Credentials) (w : World) :
  db_fault env (stmts w) = false ->
  email_taken (email body) (users (db w)) = false ->
  let w' := serve (register env body) w in
  exists stored fields,
    users (db w') = users (db w) ++ [stored]
    /\ u_password stored = bcrypt_hash env (draws w) (password body) 10
    /\ u_name stored = name body /\ u_email stored = email body
    /\ res w' = Some (201, JObj fields)
    /\ map fst fields = ["id"; "name"; "email"]%string
    /\ get_key "id" fields = Some (JNum (u_id stored))
    /\ get_key "password" fields = None.
Proof.
  intros Hf Hfree w'.
  destruct (UsersProofs.register_stores env body w Hf Hfree) as (Hu & _ & Hr).
  fold w' in Hu, Hr.
  exists (mkUser (users_seq (db w)) (name body) (email body)
                 (bcrypt_hash env (draws w) (password body) 10)),
         [("id", JNum (users_seq (db w))); ("name", JStr (name body));
          ("email", JStr (email body))]%string.
  split; [exact Hu|]. repeat split. exact Hr.
Qed.

Lemma register_hides_password_witness :
  let w := start empty_db 1000 in
  let w' := serve (register quiet ann) w in
  (db_fault quiet (stmts w) = false
   /\ email_taken (email ann) (users (db w)) = false)
  /\ exists stored fields,
      users (db w') = users (db w) ++ [stored]
      /\ u_password stored = bcrypt_hash quiet (draws w) (password ann) 10
      /\ u_name stored = name ann /\ u_email stored = email ann
      /\ res w' = Some (201, JObj fields)
      /\ map fst fields = ["id"; "name"; "email"]%string
      /\ get_key "id" fields = Some (JNum (u_id stored))
      /\ get_key "password" fields = None.
Proof.
  intros w w'. split; [split; reflexivity|].
  exact (register_hides_password quiet ann w eq_refl eq_refl).
Defined.

(** X18. A login only reads: whatever the credentials and whatever the
    store does, no table is changed and no client is held; when the store
    fails the answer is 500 "Login failed". *)
Theorem login_reads_only (env : Env) (body : Credentials) (w : World) :
  let w' := serve (login env body) w in
  db w' = db w /\ tx w' = tx w /\ checked_out w' = checked_out w
  /\ stmts w' = S (stmts w)
  /\ (db_fault env (stmts w) = true ->
      res w' = Some (500, JObj [("msg", JStr "Login failed");
                                ("error", JStr "database error")])).
Proof.
  intros w'. subst w'. unfold serve, login, try_catch, bind, query.
  destruct w as [d t co n u dr nw lg rs].
  cbn [stmts with_res db now].
  destruct (db_fault env n).
  - unfold respond. cbn. repeat split.
  - cbn [exec in_failed_tx andb user_rows].
    destruct (filter _ (users d)) as [|x rest];
      [unfold respond; cbn; repeat split; intros [=]|].
    destruct (negb (bcrypt_compare env (password body) (u_password x)));
      unfold respond, clock; cbn; repeat split; intros [=].
Qed.

End AccountProofs.

(** ** The order of a creation *)

Module OrderProofs.
Import Js Db Rt Http Auth Posts Users Runs Sample.
Import CreateProofs.
Local Open Scope js_scope.
Local Open Scope list_scope.

(** X19. What a creation without a failure does, in order: it checks a
    client out, begins, inserts the post, uploads the files one by one
    while the transaction is open, inserts all the attachments with one
    statement (none when there is no file), commits, answers 201 and
    releases the client. *)
Theorem createPost_trace (env : Env) (req : Request) (w : World) (c : Claims)
        (ds : list Descriptor) :
  res w = None -> tx w = None -> user req = Some c ->
  falsy (title req) = false -> falsy (description req) = false ->
  falsy (content req) = false ->
  (forall i, (i <= 4)%nat -> db_fault env (stmts w + i) = false) ->
  loop_result env (uploads w) (files req) = Some ds ->
  let p := mkPost (posts_seq (db w)) (c_id c) (title req) (description req)
                  (content req) (now w) in
  log (snd (createPost env req w))
  = log w
    ++ [EvConnect true; EvQuery Client BEGIN true;
        EvQuery Client (InsertPost (c_id c) (title req) (description req)
                                   (content req)) true]
    ++ flat_map (upload_pair env (uploads w) (files req))
                (seq 0 (List.length (files req)))
    ++ match ds with
       | [] => []
       | _ :: _ =>
           [EvQuery Client (InsertAttachments (placeholders ds)
                                              (values (p_id p) ds)) true]
       end
    ++ [EvQuery Client COMMIT true;
        EvRespond 201 (JObj (post_json p
                             ++ [("attachments",
                                  JArr (map descriptor_json ds))]));
        EvRelease].
Proof.
  intros Hres Htx Hu Ht Hd Hc Hok Hup p. subst p.
  rewrite (createPost_validated env req c Hu Ht Hd Hc).
  destruct w as [d t co n u dr nw lg rs].
  cbn in Hres, Htx, Hok, Hup. subst t rs.
  pose proof (Hok 0%nat ltac:(lia)) as H0. rewrite Nat.add_0_r in H0.
  pose proof (Hok 1%nat ltac:(lia)) as H1. rewrite Nat.add_1_r in H1.
  pose proof (Hok 2%nat ltac:(lia)) as H2.
  replace (n + 2)%nat with (S (S n)) in H2 by lia.
  pose proof (Hok 3%nat ltac:(lia)) as H3.
  replace (n + 3)%nat with (S (S (S n))) in H3 by lia.
  pose proof (Hok 4%nat ltac:(lia)) as H4.
  replace (n + 4)%nat with (S (S (S (S n)))) in H4 by lia.
  cbn [db tx checked_out stmts uploads now log res].
  unfold bind at 1. unfold connect. cbn [stmts log]. rewrite H0. world.
  unfold try_finally, try_catch.
  query_step F1; [congruence|].
  query_step F2; [congruence|].
  unfold bind at 1. unfold first_post at 1. reduce. unfold ret at 1.
  unfold bind at 1.
  destruct (files req) as [|f rest] eqn:Ef.
  - cbn in Hup. injection Hup as <-.
    unfold ret at 1. reduce.
    query_step F3; [congruence|].
    unfold respond. cbn [res]. reduce. unfold release. world. reduce.
    cbn [log List.length seq flat_map p_id]. now rewrite <- !app_assoc.
  - cbv beta iota. remember (f :: rest) as fs eqn:Efs.
    unfold bind at 1. rewrite RunFacts.upload_each_run. world.
    rewrite Hup. reduce.
    destruct (RunFacts.loop_result_no_failure env fs u ds Hup) as [Hatt _].
    assert (ds <> []) as Hds.
    { apply RunFacts.loop_result_length in Hup. subst fs.
      destruct ds; [discriminate|congruence]. }
    unfold bind at 1. rewrite query_client_run. rewrite H3.
    rewrite RunFacts.exec_insert_attachments by (exact Hds || reflexivity).
    reduce. unfold ret at 1. reduce.
    query_step F4; [congruence|].
    unfold respond. cbn [res]. reduce. unfold release. world. reduce.
    cbn [log p_id]. rewrite Hatt.
    destruct ds as [|d0 ds']; [congruence|].
    rewrite <- !app_assoc. reflexivity.
Qed.

Lemma createPost_trace_witness :
  let req := handler_request ann_claims 0 (Some "T") (Some "D") (Some "C")
                             [png; pdf] in
  let w := start blog 2000 in
  let ds := [mkDescriptor "https://media/a.png" "image";
             mkDescriptor "https://media/c.pdf" "pdf"] in
  let p := mkPost 3 1 (Some "T") (Some "D") (Some "C") 2000 in
  (res w = None /\ tx w = None /\ user req = Some ann_claims
   /\ loop_result quiet (uploads w) (files req) = Some ds)
  /\ log (snd (createPost quiet req w))
     = [EvConnect true; EvQuery Client BEGIN true;
        EvQuery Client (InsertPost 1 (Some "T") (Some "D") (Some "C")) true;
        EvUploadBegin png; EvUploadEnd (Some "https://media/a.png");
        EvUploadBegin pdf; EvUploadEnd (Some "https://media/c.pdf");
        EvQuery Client
                (InsertAttachments [(1, 2, 3); (1, 4, 5)]%nat
                                   [VInt 3; VText "https://media/a.png";
                                    VText "image";
                                    VText "https://media/c.pdf";
                                    VText "pdf"]) true;
        EvQuery Client COMMIT true;
        EvRespond 201 (JObj (post_json p
                             ++ [("attachments",
                                  JArr (map descriptor_json ds))]));
        EvRelease].
Proof.
  intros req w ds p. split; [repeat split|].
  rewrite (createPost_trace quiet req w ann_claims ds
             eq_refl eq_refl eq_refl eq_refl eq_refl eq_refl
             ltac:(reflexivity) eq_refl).
  reflexivity.
Defined.

End OrderProofs.

(** ** A failed upload *)

Module FailureProofs.
Import Js Db Rt Http Auth Posts Users Runs Sample.
Import CreateProofs.
Local Open Scope js_scope.
Local Open Scope list_scope.




End FailureProofs.
